(** * raptor: the correction table of probabilistic thresholding

    A shallow embedding of [src/search/precompute_correction.cpp]
    ([correction_filename], [write_correction], [read_correction],
    [precompute_correction]) together with the facts proved about it.

    Conventions of the embedding.
    - [size_t] values are integers of [Z] reduced modulo [2^64] wherever the
      source computes with them.
    - [double] values are kept abstract: the source only multiplies,
      subtracts, raises to a power, compares and prints them, and every one
      of these operations is a field of the class [DoubleOps].  The theorems
      hold for any interpretation of the operations; the closed examples run
      on exact rationals.
    - An access past the end of a [std::vector], a division by zero, a failed
      [assert] and an exception leaving the function are the constructors of
      [failure]; a computation returns [result A].
    - The file system is a finite map from paths to byte strings, threaded
      through the three functions that touch it together with a log of the
      file operations performed. *)

From Stdlib Require Import ZArith QArith Qround Qabs Lia List String Ascii.
From Stdlib.Strings Require Import Byte.
From Stdlib Require Import Decimal DecimalString.
From Stdlib Require Import Hexadecimal HexadecimalString HexadecimalN.
From stdpp Require Import base option list gmap strings.

#[local] Open Scope Z_scope.

(** ** Machine integers *)

Definition size_t_modulus : Z := 2 ^ 64.

(** Arithmetic on [size_t] is arithmetic modulo [2^64]. *)
Definition wrap (z : Z) : Z := z mod size_t_modulus.

(** [std::vector<size_t>::max_size()] of a 64-bit libstdc++. *)
Definition vector_max_size : Z := 2 ^ 60 - 1.

(** ** Outcomes *)

Inductive failure : Type :=
| OutOfRange (size index : Z)   (* operator[] past the end of a vector *)
| DivisionByZero                (* integer division by zero *)
| AssertionFailed (expr : string) (* assert, when NDEBUG is not defined *)
| LengthError                   (* std::length_error from reserve *)
| ArchiveException              (* cereal::Exception from the archive *)
| Diverged.                     (* a loop that does not come to an end *)

Inductive result (A : Type) : Type :=
| Ok (a : A)
| Fail (e : failure).
Arguments Ok {A} a.
Arguments Fail {A} e.

Definition bind {A B} (r : result A) (k : A -> result B) : result B :=
  match r with
  | Ok a => k a
  | Fail e => Fail e
  end.

Notation "x <- r ;;; k" := (bind r (fun x => k))
  (at level 100, r at next level, right associativity).

(** [vec[i]] for a [std::vector<size_t>]. *)
Definition vec_at (vec : list Z) (i : Z) : result Z :=
  if (0 <=? i) && (i <? Z.of_nat (length vec))
  then match vec !! Z.to_nat i with
       | Some x => Ok x
       | None => Fail (OutOfRange (Z.of_nat (length vec)) i)
       end
  else Fail (OutOfRange (Z.of_nat (length vec)) i).

(** ** Binomial coefficients *)

(** The binomial coefficient by Pascal's rule. *)
Fixpoint C (n k : nat) : Z :=
  match n, k with
  | _, O => 1
  | O, S _ => 0
  | S n', S k' => C n' k' + C n' k
  end.

(** Modelled from the spec: [detail::pascal_row] of
    [raptor/search/detail/pascal_row.hpp], which is not among the sources:
    "given a non-negative integer n, returns the ordered sequence of n+1
    binomial coefficients C(n,0), C(n,1), ..., C(n,n), computed iteratively
    (each row built from the previous using the additive recurrence)".  The
    bound on [n] that keeps the coefficients within 64 bits is the caller's
    precondition and is not part of the model. *)
Definition next_row (row : list Z) : list Z :=
  zip_with Z.add (0 :: row) (row ++ [0]).

Fixpoint pascal_row_nat (n : nat) : list Z :=
  match n with
  | O => [1]
  | S n' => next_row (pascal_row_nat n')
  end.

Definition pascal_row (n : Z) : list Z := pascal_row_nat (Z.to_nat n).

(** ** Double precision *)

(** The operations of [double] that the source uses. *)
Class DoubleOps (D : Type) : Type := {
  of_size_t : Z -> D;       (* conversion of a size_t operand *)
  d_one : D;                (* the literal 1.0 *)
  d_sub : D -> D -> D;      (* x - y *)
  d_mul : D -> D -> D;      (* x * y *)
  d_pow : D -> Z -> D;      (* std::pow(x, k) for a size_t k *)
  d_ge : D -> D -> bool;    (* x >= y *)
  d_print : D -> string     (* operator<< with the default float format *)
}.

(** ** The parameters of a search *)

(** Modelled from the spec: the fields of [search_arguments] that
    [precompute_correction.cpp] reads; the declaration of the record is not
    among the sources.  A [seqan3::shape] is its sequence of bits, least
    significant first; a path is its sequence of components.  The integer
    fields are unsigned and the arithmetic on them is that of [size_t]; as
    long as the window is not shorter than the k-mer a narrower type of
    [window_size] gives the same values. *)
Definition shape_t : Type := list bool.
Definition path : Type := list string.

Record search_arguments (D : Type) : Type := {
  window_size : Z;
  shape : shape_t;
  pattern_size : Z;
  p_max : D;
  fpr : D;
  treshold_was_set : bool;
  cache_thresholds : bool;
  index_file : path
}.
Arguments window_size {D} _.
Arguments shape {D} _.
Arguments pattern_size {D} _.
Arguments p_max {D} _.
Arguments fpr {D} _.
Arguments treshold_was_set {D} _.
Arguments cache_thresholds {D} _.
Arguments index_file {D} _.

(** [shape.size()], narrowed to the [uint8_t] it is stored in. *)
Definition shape_size (s : shape_t) : Z := Z.of_nat (length s) mod 256.

(** [shape.to_ulong()]. *)
Fixpoint shape_to_ulong (s : shape_t) : Z :=
  match s with
  | [] => 0
  | b :: s' => Z.b2z b + 2 * shape_to_ulong s'
  end.

(** ** The binary archive of cereal *)

(** What [cereal::BinaryOutputArchive] writes for a [std::vector<size_t>] and
    what [cereal::BinaryInputArchive] reads back: the number of elements as
    a 64-bit integer, then the elements, eight bytes each, least significant
    byte first. *)
Module Cereal.

Definition byte_of_Z (z : Z) : byte :=
  match Byte.of_N (Z.to_N (z mod 256)) with
  | Some b => b
  | None => x00
  end.

Definition Z_of_byte (b : byte) : Z := Z.of_N (Byte.to_N b).

(** The [count] low bytes of [z]. *)
Fixpoint le_bytes (count : nat) (z : Z) : list byte :=
  match count with
  | O => []
  | S count' => byte_of_Z z :: le_bytes count' (z / 256)
  end.

(** The integer that a sequence of bytes stands for. *)
Fixpoint le_value (bs : list byte) : Z :=
  match bs with
  | [] => 0
  | b :: bs' => Z_of_byte b + 256 * le_value bs'
  end.

(** [saveBinary] of each element in turn. *)
Definition save_elements (vec : list Z) : list byte :=
  flat_map (le_bytes 8) vec.

(** [oarchive(vec)]. *)
Definition save (vec : list Z) : list byte :=
  le_bytes 8 (Z.of_nat (length vec)) ++ save_elements vec.

Fixpoint load_elements (count : nat) (bs : list byte) : list Z :=
  match count with
  | O => []
  | S count' => le_value (take 8 bs) :: load_elements count' (drop 8 bs)
  end.

(** [iarchive(vec)]: [loadBinary] throws when the stream holds fewer bytes
    than asked for, and [vec.resize] throws when the stored size is larger
    than a vector can be; bytes after the last element are not looked at. *)
Definition load (bs : list byte) : result (list Z) :=
  if Z.of_nat (length bs) <? 8 then Fail ArchiveException
  else
    let vectorSize := le_value (take 8 bs) in
    if vector_max_size <? vectorSize then Fail LengthError
    else if Z.of_nat (length (drop 8 bs)) <? 8 * vectorSize
         then Fail ArchiveException
         else Ok (load_elements (Z.to_nat vectorSize) (drop 8 bs)).

End Cereal.

(** ** The file system *)

(** [p.parent_path()] and [p / name]. *)
Definition parent_path (p : path) : path := removelast p.
Definition path_append (p : path) (name : string) : path := p ++ [name].

Inductive file_event : Type :=
| QueryExists (p : path)              (* std::filesystem::exists *)
| ReadFile (p : path)                 (* a std::ifstream read to its end *)
| WriteFile (p : path) (bs : list byte). (* a std::ofstream written and closed *)

Record world : Type := {
  files : gmap path (list byte);
  events : list file_event
}.

Definition record (e : file_event) (w : world) : world :=
  {| files := files w; events := events w ++ [e] |}.

Definition store (p : path) (bs : list byte) (w : world) : world :=
  {| files := <[p := bs]> (files w); events := events w ++ [WriteFile p bs] |}.

(** ** Text written to a stream *)

(** An unsigned integer under [std::hex]. *)
Definition hex (x : Z) : string :=
  HexadecimalString.NilEmpty.string_of_uint (N.to_hex_uint (Z.to_N x)).

(** [if (auto it = result.find("0."); it != npos) result.replace(it, 2, "")]. *)
Fixpoint erase_first_zero_dot (s : string) : string :=
  match s with
  | EmptyString => EmptyString
  | String c s' =>
      match s' with
      | String c' s'' =>
          if Ascii.eqb c "0" && Ascii.eqb c' "."
          then s''
          else String c (erase_first_zero_dot s')
      | EmptyString => s
      end
  end.

Section Table.

Context {D : Type} `{DoubleOps D}.

(** Whether the program was compiled with [NDEBUG], which turns every
    [assert] into nothing. *)
Variable NDEBUG : bool.

Definition assert (cond : bool) (expr : string) : result unit :=
  if NDEBUG || cond then Ok tt else Fail (AssertionFailed expr).

(** The lambda [binom] of [precompute_correction]. *)
Definition binom (fpr inv_fpr : D) (binom_coeff : list Z)
    (number_of_minimizers number_of_fp : Z) : result D :=
  c <- vec_at binom_coeff number_of_fp ;;;
  Ok (d_mul (d_mul (of_size_t c) (d_pow fpr number_of_fp))
            (d_pow inv_fpr (wrap (number_of_minimizers - number_of_fp)))).

(** The loop [while (binom(...) >= p_max) ++number_of_fp;], returning the
    value of [number_of_fp] at its exit. *)
Fixpoint scan_loop (fuel : nat) (fpr inv_fpr bound : D) (binom_coeff : list Z)
    (number_of_minimizers number_of_fp : Z) : result Z :=
  match fuel with
  | O => Fail Diverged
  | S fuel' =>
      p <- binom fpr inv_fpr binom_coeff number_of_minimizers number_of_fp ;;;
      if d_ge p bound
      then scan_loop fuel' fpr inv_fpr bound binom_coeff number_of_minimizers
             (wrap (number_of_fp + 1))
      else Ok number_of_fp
  end.

(** The body of the outer loop: the entry of the table for one number of
    minimizers. *)
Definition correction_entry (fpr inv_fpr bound : D) (number_of_minimizers : Z)
    : result Z :=
  let binom_coeff := pascal_row number_of_minimizers in
  number_of_fp <- scan_loop (S (length binom_coeff)) fpr inv_fpr bound
                    binom_coeff number_of_minimizers 1 ;;;
  Ok (wrap (number_of_fp - 1)).

(** The outer loop over the numbers of minimizers. *)
Fixpoint minimizer_loop (fuel : nat) (fpr inv_fpr bound : D)
    (maximal_number_of_minimizers number_of_minimizers : Z)
    (correction : list Z) : result (list Z) :=
  if number_of_minimizers <=? maximal_number_of_minimizers
  then match fuel with
       | O => Fail Diverged
       | S fuel' =>
           c <- correction_entry fpr inv_fpr bound number_of_minimizers ;;;
           minimizer_loop fuel' fpr inv_fpr bound maximal_number_of_minimizers
             (wrap (number_of_minimizers + 1)) (correction ++ [c])
       end
  else Ok correction.

(** [correction.reserve(n)]. *)
Definition reserve (n : Z) : result unit :=
  if n <=? vector_max_size then Ok tt else Fail LengthError.

(** Size_t division. *)
Definition size_div (a b : Z) : result Z :=
  if b =? 0 then Fail DivisionByZero else Ok (a / b).


(** Lines 77 to 113 of [precompute_correction]: the table built when the
    threshold was not set and no stored table was read. *)
Definition build_correction (arguments : search_arguments D)
    (correction : list Z) : result (list Z) :=
  let kmer_size := shape_size (shape arguments) in
  _ <- assert (negb (window_size arguments =? kmer_size))
         "arguments.window_size != kmer_size" ;;;
  let kmers_per_window := wrap (window_size arguments - kmer_size + 1) in
  let kmers_per_pattern := wrap (pattern_size arguments - kmer_size + 1) in
  minimal_number_of_minimizers <- size_div kmers_per_pattern kmers_per_window ;;;
  let maximal_number_of_minimizers :=
    wrap (pattern_size arguments - window_size arguments + 1) in
  _ <- reserve (wrap (maximal_number_of_minimizers - minimal_number_of_minimizers)) ;;;
  let fpr_ := fpr arguments in
  let inv_fpr := d_sub d_one fpr_ in
  correction <- minimizer_loop
                  (Z.to_nat (maximal_number_of_minimizers
                             - minimal_number_of_minimizers) + 2)
                  fpr_ inv_fpr (p_max arguments)
                  maximal_number_of_minimizers minimal_number_of_minimizers
                  correction ;;;
  _ <- assert (negb (Z.of_nat (length correction) =? 0)) "correction.size() != 0" ;;;
  Ok correction.

(** [correction_filename]. *)
Definition correction_filename (arguments : search_arguments D) : string :=
  let result :=
    ("correction_"
       ++ hex (pattern_size arguments)
       ++ "_"
       ++ hex (window_size arguments)
       ++ "_"
       ++ hex (shape_to_ulong (shape arguments))
       ++ "_"
       ++ d_print (p_max arguments)
       ++ "_"
       ++ d_print (fpr arguments)
       ++ ".bin")%string in
  let result := erase_first_zero_dot result in
  let result := erase_first_zero_dot result in
  result.

(** The path both [write_correction] and [read_correction] compute. *)
Definition correction_path (arguments : search_arguments D) : path :=
  path_append (parent_path (index_file arguments)) (correction_filename arguments).

(** [write_correction]. *)
Definition write_correction (vec : list Z) (arguments : search_arguments D)
    (w : world) : result unit * world :=
  if negb (cache_thresholds arguments) then (Ok tt, w)
  else
    let filename := correction_path arguments in
    (Ok tt, store filename (Cereal.save vec) w).

(** [read_correction]: the returned pair is the [bool] result and the
    contents of [vec] afterwards. *)
Definition read_correction (vec : list Z) (arguments : search_arguments D)
    (w : world) : result (bool * list Z) * world :=
  let filename := correction_path arguments in
  let w := record (QueryExists filename) w in
  match files w !! filename with
  | None => (Ok (false, vec), w)
  | Some bs =>
      let w := record (ReadFile filename) w in
      match Cereal.load bs with
      | Ok vec' => (Ok (true, vec'), w)
      | Fail e => (Fail e, w)
      end
  end.

(** [precompute_correction]. *)
Definition precompute_correction (arguments : search_arguments D) (w : world)
    : result (list Z) * world :=
  let correction : list Z := [] in
  if treshold_was_set arguments then (Ok correction, w)
  else
    match read_correction correction arguments w with
    | (Fail e, w) => (Fail e, w)
    | (Ok (true, correction), w) => (Ok correction, w)
    | (Ok (false, correction), w) =>
        match build_correction arguments correction with
        | Fail e => (Fail e, w)
        | Ok correction =>
            match write_correction correction arguments w with
            | (Fail e, w) => (Fail e, w)
            | (Ok _, w) => (Ok correction, w)
            end
        end
    end.

End Table.

(** ** The vocabulary of the statements *)

Section Vocabulary.

Context {D : Type} `{DoubleOps D}.

(** The probability of exactly [k] false positive hits among [n] minimizers,
    [C(n,k) * fpr^k * (1 - fpr)^(n - k)], in the arithmetic of the program. *)
Definition false_positive_probability (fpr : D) (n k : Z) : D :=
  d_mul (d_mul (of_size_t (C (Z.to_nat n) (Z.to_nat k))) (d_pow fpr k))
        (d_pow (d_sub d_one fpr) (n - k)).

Definition kmer_size (arguments : search_arguments D) : Z :=
  shape_size (shape arguments).

(** The two ends of the range of minimizer counts, as integers. *)
Definition minimal_number_of_minimizers (arguments : search_arguments D) : Z :=
  (pattern_size arguments - kmer_size arguments + 1)
  / (window_size arguments - kmer_size arguments + 1).

Definition maximal_number_of_minimizers (arguments : search_arguments D) : Z :=
  pattern_size arguments - window_size arguments + 1.

(** The integer fields hold values of their unsigned types. *)
Definition fields_in_range (arguments : search_arguments D) : Prop :=
  0 <= window_size arguments < size_t_modulus
  /\ 0 <= pattern_size arguments < size_t_modulus.

(** A valid parameter tuple: the threshold was not set, the k-mer is not
    empty and shorter than the window, and the range of minimizer counts is
    not empty. *)
Definition valid_arguments (arguments : search_arguments D) : Prop :=
  fields_in_range arguments
  /\ treshold_was_set arguments = false
  /\ 0 < kmer_size arguments < window_size arguments
  /\ minimal_number_of_minimizers arguments <= maximal_number_of_minimizers arguments.

(** [cs] holds, in order, the entries of the table for the numbers of
    minimizers [ns]. *)
Definition entries_for (fpr bound : D) (ns cs : list Z) : Prop :=
  Forall2 (fun m c => correction_entry fpr (d_sub d_one fpr) bound m = Ok c)
          ns cs.

(** No table is stored for these parameters. *)
Definition no_artifact (arguments : search_arguments D) (w : world) : Prop :=
  files w !! correction_path arguments = None.

End Vocabulary.

(** The character [c] does not occur in [s]. *)
Fixpoint free (c : ascii) (s : string) : bool :=
  match s with
  | EmptyString => true
  | String x s' => negb (Ascii.eqb x c) && free c s'
  end.

(** A number printed in fixed notation below one: [0.] and then characters
    among which there is neither a point nor an underscore, as [operator<<]
    prints the values from 0.0001 on whose six digits do not round up
    to 1. *)
Definition printed_as_fraction (s : string) : Prop :=
  exists ds : string,
    s = ("0." ++ ds)%string /\ free "." ds = true /\ free "_" ds = true.

(** What a [std::vector<size_t>] can hold. *)
Definition vector_of_size_t (vec : list Z) : Prop :=
  Z.of_nat (length vec) <= vector_max_size
  /\ Forall (fun x => 0 <= x < size_t_modulus) vec.

(** ** Exact arithmetic as an interpretation of [double] *)

(** The operations of [DoubleOps] on rationals: every operation is the
    operation on real numbers, and a number is printed the way
    [operator<<] prints a [double] whose value it is (the conversion [%g]
    with six significant digits). *)
Module Exact.

Definition decimal (n : Z) : string :=
  DecimalString.NilEmpty.string_of_uint (N.to_uint (Z.to_N n)).

Fixpoint zeros (n : nat) : string :=
  match n with
  | O => EmptyString
  | S n' => String "0" (zeros n')
  end.

Definition pad_left (width : nat) (s : string) : string :=
  (zeros (width - String.length s) ++ s)%string.

Fixpoint strip_trailing_zeros (s : string) : string :=
  match s with
  | EmptyString => EmptyString
  | String c s' =>
      match strip_trailing_zeros s' with
      | EmptyString => if Ascii.eqb c "0" then EmptyString else String c EmptyString
      | t => String c t
      end
  end.

Definition pow10 (e : Z) : Q := Qpower (inject_Z 10) e.

Definition round_half_even (x : Q) : Z :=
  let f := Qfloor x in
  match Qcompare (x - inject_Z f) (1 # 2) with
  | Lt => f
  | Gt => f + 1
  | Eq => if Z.even f then f else f + 1
  end.

(** The least [m >= start] with [x * 10^m >= 1], for [0 < x < 1]. *)
Fixpoint first_digit_place (fuel : nat) (x : Q) (m : Z) : Z :=
  match fuel with
  | O => m
  | S fuel' =>
      if Qle_bool 1 (x * pow10 m) then m else first_digit_place fuel' x (m + 1)
  end.

(** The integer part of the decimal logarithm of [x > 0]. *)
Definition decimal_exponent (x : Q) : Z :=
  if Qle_bool 1 x
  then Z.of_nat (String.length (decimal (Qfloor x))) - 1
  else - first_digit_place (Pos.size_nat (Qden x)) x 1.

Definition fixed_notation (m e : Z) : string :=
  let places := 5 - e in
  let whole := decimal (m / 10 ^ places) in
  let fraction :=
    strip_trailing_zeros
      (pad_left (Z.to_nat places) (decimal (m mod 10 ^ places))) in
  match fraction with
  | EmptyString => whole
  | _ => (whole ++ "." ++ fraction)%string
  end.

Definition exponent_notation (m e : Z) : string :=
  let lead := decimal (m / 10 ^ 5) in
  let fraction := strip_trailing_zeros (pad_left 5 (decimal (m mod 10 ^ 5))) in
  let mantissa :=
    match fraction with
    | EmptyString => lead
    | _ => (lead ++ "." ++ fraction)%string
    end in
  let sign : string := if e <? 0 then "-" else "+" in
  (mantissa ++ "e" ++ sign ++ pad_left 2 (decimal (Z.abs e)))%string.

Definition print_g (x : Q) : string :=
  if Qeq_bool x 0 then "0"%string
  else
    let sign := if Qle_bool 0 x then EmptyString else "-"%string in
    let ax := Qabs x in
    let e0 := decimal_exponent ax in
    let m0 := round_half_even (ax * pow10 (5 - e0)) in
    let '(m, e) := if m0 =? 10 ^ 6 then (10 ^ 5, e0 + 1) else (m0, e0) in
    let digits :=
      if (-4 <=? e) && (e <? 6)
      then fixed_notation m e
      else exponent_notation m e in
    (sign ++ digits)%string.

#[global] Instance ops : DoubleOps Q := {|
  of_size_t := inject_Z;
  d_one := 1%Q;
  d_sub := Qminus;
  d_mul := Qmult;
  d_pow := Qpower;
  d_ge := fun x y => Qle_bool y x;
  d_print := print_g
|}.

End Exact.


(** ** [build_parsing.cpp]: the head of a layout file *)

(** The functions of [src/argument_parsing/build_parsing.cpp] that read the
    head of the input file: [read_chopper_config], [input_is_pack_file] and
    [parse_chopper_config].  What they use of sharg, chopper and cereal is
    not among the sources and is taken as a parameter: the value of
    [chopper::prefix::first_header_line], the reading of a
    [chopper::configuration] from a JSON text, a default-constructed
    configuration, [validate_shape], and [!=] on [double]. *)
Module BuildParsing.

(** [line.starts_with(p)]. *)
Fixpoint starts_with (line p : string) {struct p} : bool :=
  match p with
  | EmptyString => true
  | String a p' =>
      match line with
      | EmptyString => false
      | String b line' => Ascii.eqb a b && starts_with line' p'
      end
  end.

(** [sv.remove_prefix(n)]. *)
Fixpoint remove_prefix (n : nat) (sv : string) : string :=
  match n, sv with
  | S n', String _ sv' => remove_prefix n' sv'
  | _, _ => sv
  end.

(** A [std::ifstream] as [std::getline] sees it: the lines that are still
    to be extracted, and whether the stream is still good once they are.
    It is when the text ends with a line feed or is empty: the next
    [getline] then erases its string, extracts nothing and fails.  It is
    not when the last line had no line feed, so that reading it set
    [eofbit], and not when the file could not be opened: [getline] then
    fails before it touches its string. *)
Record ifstream : Type := {
  unread : list string;
  good_at_end : bool
}.

Definition line_feed : ascii := "010"%char.

(** The lines of a text and whether it ends with a line feed (or is
    empty). *)
Fixpoint text_lines (text : string) : list string * bool :=
  match text with
  | EmptyString => ([], true)
  | String c text' =>
      let '(lines, complete) := text_lines text' in
      if Ascii.eqb c line_feed then (EmptyString :: lines, complete)
      else match lines with
           | [] => ([String c EmptyString], false)
           | line :: lines' => (String c line :: lines', complete)
           end
  end.

(** [std::ifstream file{path}]. *)
Definition open (w : world) (p : path) : ifstream :=
  match files w !! p with
  | Some bs =>
      let '(lines, complete) := text_lines (string_of_list_byte bs) in
      {| unread := lines; good_at_end := complete |}
  | None => {| unread := []; good_at_end := false |}
  end.

(** [std::getline(file, line)]: whether it succeeded, the string and the
    stream afterwards. *)
Definition getline (file : ifstream) (line : string)
    : bool * string * ifstream :=
  match unread file with
  | next :: rest =>
      (true, next, {| unread := rest; good_at_end := good_at_end file |})
  | [] =>
      if good_at_end file
      then (false, EmptyString, {| unread := []; good_at_end := false |})
      else (false, line, file)
  end.

Section Externals.

(** [chopper::prefix::first_header_line]. *)
Variable first_header_line : string.

(** The loop [while (std::getline(file, line) && line.starts_with("##")) {}]
    of [input_is_pack_file], returning [line] at its exit. *)
Fixpoint skip_parameter_lines (fuel : nat) (file : ifstream) (line : string)
    : result string :=
  match fuel with
  | O => Fail Diverged
  | S fuel' =>
      let '(extracted, line, file) := getline file line in
      if extracted && starts_with line "##"
      then skip_parameter_lines fuel' file line
      else Ok line
  end.

(** [input_is_pack_file]. *)
Definition input_is_pack_file (p : path) (w : world) : result bool :=
  let file := open w p in
  let line := EmptyString in
  line <- skip_parameter_lines (S (length (unread file))) file line ;;;
  Ok (starts_with line first_header_line).

(** A [chopper::configuration], by the three members that are read here. *)
Variable D : Type.

Record configuration : Type := {
  k : Z;
  num_hash_functions : Z;
  false_positive_rate : D
}.

(** [cereal::JSONInputArchive iarchive(config_stream); iarchive(config);] *)
Variable json_load : string -> configuration -> result configuration.

Variable NDEBUG : bool.

(** The loop of [read_chopper_config], returning [line] and the text of
    [config_stream] at its exit. *)
Fixpoint config_lines (fuel : nat) (file_in : ifstream) (line : string)
    (config_stream : string) : result (string * string) :=
  match fuel with
  | O => Fail Diverged
  | S fuel' =>
      let '(extracted, line, file_in) := getline file_in line in
      if extracted && starts_with line "##"
      then
        if String.eqb line "##ENDCONFIG" then Ok (line, config_stream)
        else
          _ <- assert NDEBUG (1 <? Z.of_nat (String.length line))
                 "line.size() > 1u" ;;;
          let sv := remove_prefix 2 line in
          config_lines fuel' file_in line
            (config_stream ++ sv ++ String line_feed EmptyString)%string
      else Ok (line, config_stream)
  end.

(** [read_chopper_config]: the [bool] it returns and [config] afterwards. *)
Definition read_chopper_config (config : configuration) (config_file : path)
    (w : world) : result (bool * configuration) :=
  let file_in := open w config_file in
  let line := EmptyString in
  let config_stream := EmptyString in
  let '(_, line, file_in) := getline file_in line in
  if negb (String.eqb line "##CONFIG:") then Ok (false, config)
  else
    bind
      (config_lines (S (length (unread file_in))) file_in line config_stream)
      (fun '(line, config_stream) =>
         if negb (String.eqb line "##ENDCONFIG") then Ok (false, config)
         else
           config <- json_load config_stream config ;;;
           Ok (true, config)).

(** The members of [build_arguments] that [parse_chopper_config] reads or
    writes, and a [sharg::parser] by the options that were set. *)
Record build_arguments : Type := {
  bin_file : path;
  input_is_minimiser : bool;
  kmer_size : Z;
  hash : Z;
  fpr : D
}.

Record parser : Type := { is_option_set : string -> bool }.

Definition set_kmer_size (x : Z) (a : build_arguments) : build_arguments :=
  {| bin_file := bin_file a; input_is_minimiser := input_is_minimiser a;
     kmer_size := x; hash := hash a; fpr := fpr a |}.

Definition set_hash (x : Z) (a : build_arguments) : build_arguments :=
  {| bin_file := bin_file a; input_is_minimiser := input_is_minimiser a;
     kmer_size := kmer_size a; hash := x; fpr := fpr a |}.

Definition set_fpr (x : D) (a : build_arguments) : build_arguments :=
  {| bin_file := bin_file a; input_is_minimiser := input_is_minimiser a;
     kmer_size := kmer_size a; hash := hash a; fpr := x |}.

(** What leaves [parse_chopper_config] as an exception. *)
Inductive thrown : Type :=
| validation_error (what : string)   (* sharg::validation_error *)
| other (e : failure).               (* from the archive, or an abort *)

Inductive outcome (A : Type) : Type :=
| Returns (a : A)
| Throws (t : thrown).
Arguments Returns {A} a.
Arguments Throws {A} t.

(** The three warnings written to [std::cerr], by what they compare. *)
Inductive warning : Type :=
| kmer_size_differs (given in_layout : Z)
| hash_differs (given in_layout : Z)
| fpr_differs (given in_layout : D).

(** [chopper::configuration config{}]. *)
Variable default_configuration : configuration.

(** [validate_shape(parser, arguments)]. *)
Variable validate_shape : parser -> build_arguments -> outcome build_arguments.

(** [x != y] on [double]. *)
Variable d_ne : D -> D -> bool.

(** [parse_chopper_config]: [arguments] afterwards and what was written to
    [std::cerr]. *)
Definition parse_chopper_config (parser : parser) (arguments : build_arguments)
    (w : world) : outcome (build_arguments * list warning) :=
  let config := default_configuration in
  let kmer_set := is_option_set parser "kmer" in
  let shape_set := is_option_set parser "shape" in
  let hash_set := is_option_set parser "hash" in
  let fpr_set := is_option_set parser "fpr" in
  let config_required :=
    (negb (input_is_minimiser arguments) && negb kmer_set && negb shape_set)
    || negb hash_set || negb fpr_set in
  match read_chopper_config config (bin_file arguments) w with
  | Fail e => Throws (other e)
  | Ok (config_available, config) =>
      if negb config_available && config_required
      then
        if input_is_minimiser arguments
        then Throws (validation_error
               "Could not read config from layout file. Please set --hash and --fpr.")
        else Throws (validation_error
               "Could not read config from layout file. Please set --kmer, --hash, and --fpr.")
      else
        let '(arguments, cerr) :=
          if config_available && kmer_set
             && negb (k config =? kmer_size arguments)
          then (arguments, [kmer_size_differs (kmer_size arguments) (k config)])
          else (set_kmer_size (k config) arguments, []) in
        match validate_shape parser arguments with
        | Throws t => Throws t
        | Returns arguments =>
            let '(arguments, cerr) :=
              if config_available && hash_set
                 && negb (num_hash_functions config =? hash arguments)
              then (arguments,
                    cerr ++ [hash_differs (hash arguments)
                               (num_hash_functions config)])
              else (set_hash (num_hash_functions config) arguments, cerr) in
            let '(arguments, cerr) :=
              if config_available && fpr_set
                 && d_ne (false_positive_rate config) (fpr arguments)
              then (arguments,
                    cerr ++ [fpr_differs (fpr arguments)
                               (false_positive_rate config)])
              else (set_fpr (false_positive_rate config) arguments, cerr) in
            Returns (arguments, cerr)
        end
  end.

End Externals.

Arguments Returns {A} a.
Arguments Throws {A} t.
Arguments k {D} _.
Arguments num_hash_functions {D} _.
Arguments false_positive_rate {D} _.
Arguments bin_file {D} _.
Arguments input_is_minimiser {D} _.
Arguments kmer_size {D} _.
Arguments hash {D} _.
Arguments fpr {D} _.
Arguments set_kmer_size {D} x a.
Arguments set_hash {D} x a.
Arguments set_fpr {D} x a.
Arguments kmer_size_differs {D} given in_layout.
Arguments hash_differs {D} given in_layout.
Arguments fpr_differs {D} given in_layout.
Arguments read_chopper_config {D} json_load NDEBUG config config_file w.
Arguments parse_chopper_config {D} json_load NDEBUG default_configuration
  validate_shape d_ne parser arguments w.

End BuildParsing.

(** ** Parameter tuples and file systems of the examples *)

Module Examples.

Import Exact.

(** [seqan3::ungapped{k}]. *)
Definition ungapped (k : nat) : shape_t := repeat true k.

(** A search with 20-mers next to the index [data/raptor.index]. *)
Definition search (pattern window : Z) (bound rate : Q) : search_arguments Q :=
  {| window_size := window;
     shape := ungapped 20;
     pattern_size := pattern;
     p_max := bound;
     fpr := rate;
     treshold_was_set := false;
     cache_thresholds := true;
     index_file := ["data"; "raptor.index"]%string |}.

Definition with_threshold_set (a : search_arguments Q) : search_arguments Q :=
  {| window_size := window_size a;
     shape := shape a;
     pattern_size := pattern_size a;
     p_max := p_max a;
     fpr := fpr a;
     treshold_was_set := true;
     cache_thresholds := cache_thresholds a;
     index_file := index_file a |}.

Definition without_cache (a : search_arguments Q) : search_arguments Q :=
  {| window_size := window_size a;
     shape := shape a;
     pattern_size := pattern_size a;
     p_max := p_max a;
     fpr := fpr a;
     treshold_was_set := treshold_was_set a;
     cache_thresholds := false;
     index_file := index_file a |}.

(** A file system without files and one with a single file. *)
Definition no_files : world := {| files := ∅; events := [] |}.

Definition one_file (p : path) (bs : list byte) : world :=
  {| files := {[ p := bs ]}; events := [] |}.

End Examples.

(** ** Layout files of the examples *)

Module BuildExamples.

Import BuildParsing.

(** The text of the lines between [##CONFIG:] and [##ENDCONFIG], as
    [read_chopper_config] hands it to the archive: every line without its
    two number signs and with a line feed after it. *)
Fixpoint config_text (body : list string) : string :=
  match body with
  | [] => EmptyString
  | b :: body' => (b ++ String line_feed (config_text body'))%string
  end.

(** A text of complete lines. *)
Definition unlines (lines : list string) : string := config_text lines.

(** A file system with one text file. *)
Definition text_file (p : path) (text : string) : world :=
  {| files := {[ p := list_byte_of_string text ]}; events := [] |}.

Definition layout : path := ["data"; "raptor.layout"]%string.

(** A layout file with a head of two lines of configuration. *)
Definition layout_with_config : world :=
  text_file layout
    (unlines ["##CONFIG:"; "##{"; "##}"; "##ENDCONFIG";
              "#HIGH_LEVEL_IBF max_bin_id:0"; "#FILES"; "file.fa"]%string).

(** A layout file without such a head. *)
Definition layout_without_config : world :=
  text_file layout
    (unlines ["#HIGH_LEVEL_IBF max_bin_id:0"; "#FILES"; "file.fa"]%string).

(** A list of files. *)
Definition file_list : world :=
  text_file layout (unlines ["file1.fa"; "file2.fa"]%string).

(** A stand-in for the archive: the configuration read has the length of
    the text as its [k]. *)
Definition length_as_k (text : string) (config : configuration Q)
    : result (configuration Q) :=
  Ok {| k := Z.of_nat (String.length text);
        num_hash_functions := num_hash_functions config;
        false_positive_rate := false_positive_rate config |}.

Definition defaults : configuration Q :=
  {| k := 19; num_hash_functions := 2; false_positive_rate := 5 # 100 |}.

(** A parser on which the listed options were set. *)
Definition options (set : list string) : parser :=
  {| is_option_set :=
       fun name => existsb (String.eqb name) set |}.

(** A [validate_shape] that changes nothing. *)
Definition accept_shape (p : parser) (a : build_arguments Q)
    : outcome (build_arguments Q) := Returns a.

Definition given : build_arguments Q :=
  {| bin_file := layout; input_is_minimiser := false;
     kmer_size := 32; hash := 4; fpr := 1 # 100 |}.

End BuildExamples.

(** * Facts *)

(** ** Machine integers *)

Lemma wrap_small (z : Z) : 0 <= z < size_t_modulus -> wrap z = z.
Proof. intros Hz. unfold wrap. apply Z.mod_small, Hz. Qed.

Lemma wrap_range (z : Z) : 0 <= wrap z < size_t_modulus.
Proof. unfold wrap, size_t_modulus. apply Z.mod_pos_bound. lia. Qed.

Lemma vec_at_in_range (vec : list Z) (i : Z) (x : Z) :
  0 <= i -> vec !! Z.to_nat i = Some x -> vec_at vec i = Ok x.
Proof.
  intros Hi Hx. unfold vec_at.
  pose proof (lookup_lt_Some _ _ _ Hx) as Hlt.
  replace (0 <=? i) with true by (symmetry; apply Z.leb_le; lia).
  replace (i <? Z.of_nat (length vec)) with true by (symmetry; apply Z.ltb_lt; lia).
  simpl. rewrite Hx. reflexivity.
Qed.

Lemma vec_at_past_end (vec : list Z) (i : Z) :
  Z.of_nat (length vec) <= i ->
  vec_at vec i = Fail (OutOfRange (Z.of_nat (length vec)) i).
Proof.
  intros Hi. unfold vec_at.
  replace (i <? Z.of_nat (length vec)) with false by (symmetry; apply Z.ltb_ge; lia).
  rewrite andb_false_r. reflexivity.
Qed.

(** ** The row of Pascal's triangle *)

Lemma C_above (n : nat) : forall k : nat, (n < k)%nat -> C n k = 0.
Proof.
  induction n as [|n IH]; intros [|k] Hk; simpl; try lia.
  rewrite !IH by lia. reflexivity.
Qed.

Lemma length_next_row (row : list Z) : length (next_row row) = S (length row).
Proof.
  unfold next_row. rewrite length_zip_with, length_app. cbn [length]. lia.
Qed.

Lemma length_pascal_row_nat (n : nat) : length (pascal_row_nat n) = S n.
Proof.
  induction n as [|n IH]; simpl; [reflexivity|].
  rewrite length_next_row, IH. reflexivity.
Qed.

Lemma lookup_pascal_row_nat (n : nat) :
  forall k : nat, (k <= n)%nat -> pascal_row_nat n !! k = Some (C n k).
Proof.
  induction n as [|n IH]; intros k Hk.
  - assert (k = O) as -> by lia. reflexivity.
  - simpl. unfold next_row. rewrite lookup_zip_with.
    destruct k as [|k]; simpl.
    + rewrite lookup_app_l by (rewrite length_pascal_row_nat; lia).
      rewrite (IH O) by lia. simpl. destruct n; reflexivity.
    + rewrite (IH k) by lia. simpl.
      destruct (decide (S k <= n)%nat) as [Hle|Hgt].
      * rewrite lookup_app_l by (rewrite length_pascal_row_nat; lia).
        rewrite (IH (S k)) by lia. reflexivity.
      * assert (k = n) as -> by lia.
        rewrite lookup_app_r by (rewrite length_pascal_row_nat; lia).
        rewrite length_pascal_row_nat, Nat.sub_diag. simpl.
        rewrite (C_above n (S n)) by lia. reflexivity.
Qed.

Lemma length_pascal_row (n : Z) :
  0 <= n -> Z.of_nat (length (pascal_row n)) = n + 1.
Proof. intros Hn. unfold pascal_row. rewrite length_pascal_row_nat. lia. Qed.

Lemma pascal_row_at (n k : Z) :
  0 <= k <= n ->
  vec_at (pascal_row n) k = Ok (C (Z.to_nat n) (Z.to_nat k)).
Proof.
  intros Hk. apply vec_at_in_range; [lia|].
  unfold pascal_row. apply lookup_pascal_row_nat. lia.
Qed.

(** ** The scan for the cut-off *)

Section Scan.

Context {D : Type} `{DoubleOps D}.
Variables (fpr_ bound : D) (n : Z).
Hypothesis n_range : 0 <= n < size_t_modulus - 1.

#[local] Abbreviation inv_fpr := (d_sub d_one fpr_).

Lemma binom_in_row (k : Z) :
  0 <= k <= n ->
  binom fpr_ inv_fpr (pascal_row n) n k
  = Ok (false_positive_probability fpr_ n k).
Proof.
  intros Hk. unfold binom. rewrite pascal_row_at by lia. simpl.
  rewrite wrap_small by lia. reflexivity.
Qed.

Lemma binom_past_row (k : Z) :
  n < k ->
  binom fpr_ inv_fpr (pascal_row n) n k = Fail (OutOfRange (n + 1) k).
Proof.
  intros Hk. unfold binom. rewrite vec_at_past_end.
  - simpl. rewrite length_pascal_row by lia. reflexivity.
  - rewrite length_pascal_row by lia. lia.
Qed.

(** A scan that comes to an end stops at the first count whose probability
    is below the bound, and that count is inside the row. *)
Lemma scan_loop_Ok (fuel : nat) :
  forall k k' : Z,
    0 <= k ->
    scan_loop fuel fpr_ inv_fpr bound (pascal_row n) n k = Ok k' ->
    k <= k' <= n
    /\ d_ge (false_positive_probability fpr_ n k') bound = false
    /\ forall j, k <= j < k' ->
                 d_ge (false_positive_probability fpr_ n j) bound = true.
Proof.
  induction fuel as [|fuel IH]; intros k k' Hk Hrun; simpl in Hrun.
  - discriminate.
  - destruct (Z_le_gt_dec k n) as [Hin|Hout].
    + rewrite binom_in_row in Hrun by lia. simpl in Hrun.
      destruct (d_ge (false_positive_probability fpr_ n k) bound) eqn:Hge.
      * rewrite wrap_small in Hrun by lia.
        apply IH in Hrun; [|lia]. destruct Hrun as (Hk' & Hlast & Hbefore).
        repeat split; try lia; [exact Hlast|].
        intros j Hj. destruct (Z.eq_dec j k) as [->|Hne]; [exact Hge|].
        apply Hbefore. lia.
      * injection Hrun as <-. repeat split; try lia. exact Hge.
    + rewrite binom_past_row in Hrun by lia. discriminate.
Qed.

(** A scan that fails has run off the end of the row: every count of the
    row has a probability that is not below the bound. *)
Lemma scan_loop_Fail (fuel : nat) :
  forall (k : Z) (e : failure),
    0 <= k <= n + 1 ->
    n + 1 - k < Z.of_nat fuel ->
    scan_loop fuel fpr_ inv_fpr bound (pascal_row n) n k = Fail e ->
    e = OutOfRange (n + 1) (n + 1)
    /\ forall j, k <= j <= n ->
                 d_ge (false_positive_probability fpr_ n j) bound = true.
Proof.
  induction fuel as [|fuel IH]; intros k e Hk Hfuel Hrun; simpl in Hrun.
  - lia.
  - destruct (Z_le_gt_dec k n) as [Hin|Hout].
    + rewrite binom_in_row in Hrun by lia. simpl in Hrun.
      destruct (d_ge (false_positive_probability fpr_ n k) bound) eqn:Hge.
      * rewrite wrap_small in Hrun by lia.
        apply IH in Hrun; [|lia|lia]. destruct Hrun as (-> & Hall).
        split; [reflexivity|].
        intros j Hj. destruct (Z.eq_dec j k) as [->|Hne]; [exact Hge|].
        apply Hall. lia.
      * discriminate.
    + rewrite binom_past_row in Hrun by lia.
      assert (k = n + 1) as -> by lia.
      injection Hrun as <-. split; [reflexivity|]. intros j Hj. lia.
Qed.

(** The entry for [n], when there is one. *)
Lemma correction_entry_Ok (c : Z) :
  correction_entry fpr_ inv_fpr bound n = Ok c ->
  0 <= c < n
  /\ d_ge (false_positive_probability fpr_ n (c + 1)) bound = false
  /\ forall j, 1 <= j <= c ->
               d_ge (false_positive_probability fpr_ n j) bound = true.
Proof.
  unfold correction_entry. intros Hrun.
  destruct (scan_loop _ _ _ _ _ _ _) as [k'|e] eqn:Hscan; simpl in Hrun;
    [|discriminate].
  apply scan_loop_Ok in Hscan; [|lia]. destruct Hscan as (Hk' & Hlast & Hbefore).
  rewrite wrap_small in Hrun by lia. injection Hrun as <-.
  replace (k' - 1 + 1) with k' by lia.
  repeat split; try lia; [exact Hlast|].
  intros j Hj. apply Hbefore. lia.
Qed.

(** There is no entry for [n] exactly when no count of the row has a
    probability below the bound; the scan then reads [binom_coeff[n + 1]]. *)
Lemma correction_entry_Fail (e : failure) :
  correction_entry fpr_ inv_fpr bound n = Fail e ->
  e = OutOfRange (n + 1) (n + 1)
  /\ forall j, 1 <= j <= n ->
               d_ge (false_positive_probability fpr_ n j) bound = true.
Proof.
  unfold correction_entry. intros Hrun.
  destruct (scan_loop _ _ _ _ _ _ _) as [k'|e'] eqn:Hscan; simpl in Hrun;
    [discriminate|].
  injection Hrun as <-.
  apply scan_loop_Fail in Hscan; [exact Hscan|lia|].
  pose proof (length_pascal_row n ltac:(lia)). lia.
Qed.

Lemma correction_entry_total (k : Z) :
  1 <= k <= n ->
  d_ge (false_positive_probability fpr_ n k) bound = false ->
  exists c, correction_entry fpr_ inv_fpr bound n = Ok c.
Proof.
  intros Hk Hbelow.
  destruct (correction_entry fpr_ inv_fpr bound n) as [c|e] eqn:Hrun.
  - exists c. reflexivity.
  - apply correction_entry_Fail in Hrun. destruct Hrun as [_ Hall].
    rewrite (Hall k Hk) in Hbelow. discriminate.
Qed.

End Scan.

(** ** The loop over the numbers of minimizers *)

Section Loop.

Context {D : Type} `{DoubleOps D}.
Variables (fpr_ bound : D) (maximal : Z).
Hypothesis maximal_range : 0 <= maximal < size_t_modulus - 1.

#[local] Abbreviation inv_fpr := (d_sub d_one fpr_).

(** The numbers of minimizers the loop still has to go through. *)
#[local] Abbreviation remaining n := (seqZ n (maximal + 1 - n)).

Lemma minimizer_loop_Ok (fuel : nat) :
  forall (n : Z) (correction table : list Z),
    0 <= n <= maximal + 1 ->
    minimizer_loop fuel fpr_ inv_fpr bound maximal n correction = Ok table ->
    exists cs, table = correction ++ cs
               /\ entries_for fpr_ bound (remaining n) cs.
Proof.
  induction fuel as [|fuel IH]; intros n correction table Hn Hrun;
    simpl in Hrun; destruct (Z.leb_spec n maximal) as [Hle|Hgt];
    try discriminate.
  - injection Hrun as <-. exists []. split; [by rewrite app_nil_r|].
    unfold entries_for. rewrite seqZ_nil by lia. constructor.
  - destruct (correction_entry fpr_ inv_fpr bound n) as [c|e] eqn:Hentry;
      simpl in Hrun; [|discriminate].
    rewrite wrap_small in Hrun by lia.
    apply IH in Hrun; [|lia]. destruct Hrun as (cs & -> & Hcs).
    exists (c :: cs). split; [by rewrite <- app_assoc|].
    unfold entries_for in *. rewrite seqZ_cons by lia.
    constructor; [exact Hentry|].
    replace (Z.pred (maximal + 1 - n)) with (maximal + 1 - Z.succ n) by lia.
    exact Hcs.
  - injection Hrun as <-. exists []. split; [by rewrite app_nil_r|].
    unfold entries_for. rewrite seqZ_nil by lia. constructor.
Qed.

(** With fuel for every number of the range the loop fails only where the
    scan of one of them fails. *)
Lemma minimizer_loop_Fail (fuel : nat) :
  forall (n : Z) (correction : list Z) (e : failure),
    0 <= n <= maximal + 1 ->
    maximal + 1 - n <= Z.of_nat fuel ->
    minimizer_loop fuel fpr_ inv_fpr bound maximal n correction = Fail e ->
    exists m, n <= m <= maximal
              /\ correction_entry fpr_ inv_fpr bound m = Fail e.
Proof.
  induction fuel as [|fuel IH]; intros n correction e Hn Hfuel Hrun;
    simpl in Hrun; destruct (Z.leb_spec n maximal) as [Hle|Hgt];
    try discriminate; try lia.
  destruct (correction_entry fpr_ inv_fpr bound n) as [c|e'] eqn:Hentry;
    simpl in Hrun.
  - rewrite wrap_small in Hrun by lia.
    apply IH in Hrun; [|lia|lia]. destruct Hrun as (m & Hm & Hfail).
    exists m. split; [lia|exact Hfail].
  - injection Hrun as <-. exists n. split; [lia|exact Hentry].
Qed.

End Loop.

(** ** The table of a valid parameter tuple *)

Section Build.

Context {D : Type} `{DoubleOps D}.
Variable NDEBUG : bool.
Variable arguments : search_arguments D.
Hypothesis valid : valid_arguments arguments.

#[local] Abbreviation minimal := (minimal_number_of_minimizers arguments).
#[local] Abbreviation maximal := (maximal_number_of_minimizers arguments).

(** A range of minimizer counts that is not empty belongs to a pattern that
    is at most one shorter than the window. *)
Lemma valid_pattern_size : window_size arguments - 1 <= pattern_size arguments.
Proof.
  destruct valid as ((Hw & Hp) & _ & Hk & Hrange).
  unfold minimal_number_of_minimizers, maximal_number_of_minimizers in Hrange.
  set (k := kmer_size arguments) in *.
  set (w := window_size arguments) in *.
  set (p := pattern_size arguments) in *.
  destruct (Z_le_gt_dec (w - 1) p) as [Hle|Hgt]; [exact Hle|exfalso].
  assert (p - k + 1 < w - k + 1) as Hsmall by lia.
  destruct (Z_le_gt_dec 0 (p - k + 1)) as [Hpos|Hneg].
  - rewrite Z.div_small in Hrange by lia. lia.
  - pose proof (Z.mul_div_le (p - k + 1) (w - k + 1) ltac:(lia)) as Hdiv.
    pose proof (Z.mod_pos_bound (p - k + 1) (w - k + 1) ltac:(lia)) as Hmod.
    pose proof (Z.div_mod (p - k + 1) (w - k + 1) ltac:(lia)) as Heq.
    nia.
Qed.

Lemma valid_range : 0 <= minimal <= maximal /\ maximal < size_t_modulus - 1.
Proof.
  pose proof valid_pattern_size as Hp.
  destruct valid as ((Hw & Hp') & _ & Hk & Hrange).
  unfold minimal_number_of_minimizers, maximal_number_of_minimizers in *.
  repeat split; [|exact Hrange|lia].
  apply Z.div_pos; lia.
Qed.

(** On a valid tuple nothing wraps around, the first assertion holds and the
    division is defined: what is left of [build_correction] is the
    reservation, the loop and the second assertion. *)
Lemma build_correction_valid :
  build_correction NDEBUG arguments []
  = (_ <- reserve (maximal - minimal) ;;;
     correction <- minimizer_loop (Z.to_nat (maximal - minimal) + 2)
                     (fpr arguments) (d_sub d_one (fpr arguments))
                     (p_max arguments) maximal minimal [] ;;;
     _ <- assert NDEBUG (negb (Z.of_nat (length correction) =? 0))
            "correction.size() != 0" ;;;
     Ok correction).
Proof.
  pose proof valid_pattern_size as Hp.
  pose proof valid_range as (Hmin & Hmax).
  destruct valid as ((Hw & Hp') & _ & Hk & Hrange).
  unfold minimal_number_of_minimizers, maximal_number_of_minimizers,
    kmer_size in *.
  unfold build_correction, assert.
  replace (window_size arguments =? shape_size (shape arguments)) with false
    by (symmetry; apply Z.eqb_neq; lia).
  rewrite orb_true_r. cbn [bind negb].
  rewrite !(wrap_small (_ - shape_size _ + 1)) by lia.
  rewrite (wrap_small (pattern_size arguments - window_size arguments + 1)) by lia.
  unfold size_div.
  replace (window_size arguments - shape_size (shape arguments) + 1 =? 0)
    with false by (symmetry; apply Z.eqb_neq; lia).
  cbn [bind]. rewrite wrap_small by lia. reflexivity.
Qed.

(** The table that is built holds one entry for each number of the range,
    in order. *)
Lemma build_correction_entries (table : list Z) :
  build_correction NDEBUG arguments [] = Ok table ->
  entries_for (fpr arguments) (p_max arguments)
    (seqZ minimal (maximal + 1 - minimal)) table.
Proof.
  pose proof valid_range as (Hmin & Hmax).
  rewrite build_correction_valid. intros Hrun.
  destruct (reserve _) as [[]|e]; simpl in Hrun; [|discriminate].
  destruct (minimizer_loop _ _ _ _ _ _ _) as [correction|e] eqn:Hloop;
    simpl in Hrun; [|discriminate].
  destruct (assert _ _ _) as [[]|e]; simpl in Hrun; [|discriminate].
  injection Hrun as <-.
  apply minimizer_loop_Ok in Hloop; [|lia|lia].
  destruct Hloop as (cs & -> & Hcs). exact Hcs.
Qed.

(** A valid tuple whose range is less than [vector_max_size] long has a
    table as soon as every scan finds its cut-off inside the row. *)
Lemma build_correction_total :
  maximal - minimal <= vector_max_size ->
  (forall n, minimal <= n <= maximal ->
     exists k, 1 <= k <= n
       /\ d_ge (false_positive_probability (fpr arguments) n k)
               (p_max arguments) = false) ->
  exists table, build_correction NDEBUG arguments [] = Ok table.
Proof.
  intros Hsize Hcut.
  pose proof valid_range as (Hmin & Hmax).
  rewrite build_correction_valid. unfold reserve.
  replace (maximal - minimal <=? vector_max_size) with true
    by (symmetry; apply Z.leb_le; lia).
  cbn [bind].
  destruct (minimizer_loop _ _ _ _ _ _ _) as [correction|e] eqn:Hloop.
  - pose proof Hloop as Hok.
    apply minimizer_loop_Ok in Hok; [|lia|lia].
    destruct Hok as (cs & -> & Hcs).
    apply Forall2_length in Hcs. rewrite length_seqZ in Hcs.
    cbn [bind app]. unfold assert.
    replace (Z.of_nat (length cs) =? 0) with false
      by (symmetry; apply Z.eqb_neq; lia).
    rewrite orb_true_r. cbn [bind]. eexists. reflexivity.
  - exfalso. apply minimizer_loop_Fail in Hloop; [|lia|lia|lia].
    destruct Hloop as (m & Hm & Hfail).
    apply correction_entry_Fail in Hfail; [|lia].
    destruct Hfail as [_ Hall].
    destruct (Hcut m Hm) as (k & Hk & Hbelow).
    rewrite (Hall k Hk) in Hbelow. discriminate.
Qed.

(** The build of a valid tuple fails in two ways only: the range does not
    fit a vector, or the scan of some number [m] of minimizers finds no
    count of its row with a probability below the bound and reads the
    element after the last.  No loop goes on for ever. *)
Lemma build_correction_failure (e : failure) :
  build_correction NDEBUG arguments [] = Fail e ->
  e = LengthError
  \/ exists m, minimal <= m <= maximal
       /\ e = OutOfRange (m + 1) (m + 1)
       /\ forall j, 1 <= j <= m ->
            d_ge (false_positive_probability (fpr arguments) m j)
                 (p_max arguments) = true.
Proof.
  pose proof valid_range as (Hmin & Hmax).
  rewrite build_correction_valid. unfold reserve. intros Hrun.
  destruct (maximal - minimal <=? vector_max_size); cbn [bind] in Hrun;
    [|injection Hrun as <-; left; reflexivity].
  destruct (minimizer_loop _ _ _ _ _ _ _) as [correction|e'] eqn:Hloop;
    cbn [bind] in Hrun.
  - exfalso. apply minimizer_loop_Ok in Hloop; [|lia|lia].
    destruct Hloop as (cs & -> & Hcs).
    apply Forall2_length in Hcs. rewrite length_seqZ in Hcs.
    unfold assert in Hrun. cbn [app] in Hrun.
    replace (Z.of_nat (length cs) =? 0) with false in Hrun
      by (symmetry; apply Z.eqb_neq; lia).
    rewrite orb_true_r in Hrun. discriminate.
  - injection Hrun as <-. right.
    apply minimizer_loop_Fail in Hloop; [|lia|lia|lia].
    destruct Hloop as (m & Hm & Hfail).
    apply correction_entry_Fail in Hfail; [|lia].
    destruct Hfail as [-> Hall]. exists m. repeat split; try lia. exact Hall.
Qed.

End Build.

(** ** The archive *)

Section Archive.

Import Cereal.

Lemma Z_of_byte_of_Z (z : Z) : Z_of_byte (byte_of_Z z) = z mod 256.
Proof.
  pose proof (Z.mod_pos_bound z 256 ltac:(lia)) as Hz.
  unfold Z_of_byte, byte_of_Z.
  destruct (Byte.of_N (Z.to_N (z mod 256))) as [b|] eqn:Hb.
  - apply Byte.to_of_N in Hb. rewrite Hb. lia.
  - apply Byte.of_N_None_iff in Hb. lia.
Qed.

Lemma length_le_bytes (count : nat) : forall z, length (le_bytes count z) = count.
Proof. induction count as [|count IH]; intros z; simpl; [|rewrite IH]; reflexivity. Qed.

Lemma le_value_le_bytes (count : nat) :
  forall z, le_value (le_bytes count z) = z mod 256 ^ Z.of_nat count.
Proof.
  induction count as [|count IH]; intros z.
  - simpl. rewrite Z.mod_1_r. reflexivity.
  - cbn [le_bytes le_value]. rewrite IH, Z_of_byte_of_Z.
    rewrite Nat2Z.inj_succ, Z.pow_succ_r by lia.
    rewrite Z.rem_mul_r by lia. reflexivity.
Qed.

Lemma le_value_size_t (z : Z) :
  0 <= z < size_t_modulus -> le_value (le_bytes 8 z) = z.
Proof.
  intros Hz. rewrite le_value_le_bytes. apply Z.mod_small. exact Hz.
Qed.

Lemma length_save_elements (vec : list Z) :
  length (save_elements vec) = (8 * length vec)%nat.
Proof.
  unfold save_elements. induction vec as [|x vec IH]; [reflexivity|].
  change (flat_map (le_bytes 8) (x :: vec))
    with (le_bytes 8 x ++ flat_map (le_bytes 8) vec).
  rewrite length_app, length_le_bytes, IH. cbn [length]. lia.
Qed.

Lemma load_elements_save_elements (vec : list Z) (rest : list byte) :
  Forall (fun x => 0 <= x < size_t_modulus) vec ->
  load_elements (length vec) (save_elements vec ++ rest) = vec.
Proof.
  unfold save_elements. induction 1 as [|x vec Hx _ IH]; [reflexivity|].
  change (flat_map (le_bytes 8) (x :: vec))
    with (le_bytes 8 x ++ flat_map (le_bytes 8) vec).
  cbn [length load_elements]. rewrite <- app_assoc.
  rewrite take_app_length' by (by rewrite length_le_bytes).
  rewrite drop_app_length' by (by rewrite length_le_bytes).
  rewrite le_value_size_t by exact Hx. rewrite IH. reflexivity.
Qed.

(** What was saved is what is loaded, also when other bytes follow. *)
Lemma load_save (vec : list Z) (rest : list byte) :
  vector_of_size_t vec -> load (save vec ++ rest) = Ok vec.
Proof.
  intros [Hlen Hall]. unfold load, save. rewrite <- app_assoc.
  rewrite !length_app, length_le_bytes.
  replace (Z.of_nat (8 + _) <? 8) with false by (symmetry; apply Z.ltb_ge; lia).
  rewrite take_app_length' by (by rewrite length_le_bytes).
  rewrite drop_app_length' by (by rewrite length_le_bytes).
  assert (vector_max_size < size_t_modulus) as Hmax by reflexivity.
  rewrite le_value_size_t by lia.
  replace (vector_max_size <? Z.of_nat (length vec)) with false
    by (symmetry; apply Z.ltb_ge; lia).
  rewrite length_app, length_save_elements.
  replace (Z.of_nat (8 * length vec + length rest) <? 8 * Z.of_nat (length vec))
    with false by (symmetry; apply Z.ltb_ge; lia).
  rewrite Nat2Z.id, load_elements_save_elements by exact Hall. reflexivity.
Qed.

(** Fewer than eight bytes are not an archive. *)
Lemma load_short (bs : list byte) :
  (length bs < 8)%nat -> load bs = Fail ArchiveException.
Proof.
  intros Hlen. unfold load.
  replace (Z.of_nat (length bs) <? 8) with true by (symmetry; apply Z.ltb_lt; lia).
  reflexivity.
Qed.

End Archive.

(** ** The three functions on the file system *)

Section Files.

Context {D : Type} `{DoubleOps D}.
Variable NDEBUG : bool.
Variable arguments : search_arguments D.

#[local] Abbreviation filename := (correction_path arguments).

Lemma write_correction_disabled (vec : list Z) (w : world) :
  cache_thresholds arguments = false ->
  write_correction vec arguments w = (Ok tt, w).
Proof. intros Hoff. unfold write_correction. rewrite Hoff. reflexivity. Qed.

Lemma write_correction_enabled (vec : list Z) (w : world) :
  cache_thresholds arguments = true ->
  write_correction vec arguments w = (Ok tt, store filename (Cereal.save vec) w).
Proof. intros Hon. unfold write_correction. rewrite Hon. reflexivity. Qed.

Lemma read_correction_absent (vec : list Z) (w : world) :
  no_artifact arguments w ->
  read_correction vec arguments w
  = (Ok (false, vec), record (QueryExists filename) w).
Proof.
  unfold no_artifact, read_correction. cbn [record files]. intros ->.
  reflexivity.
Qed.

Lemma read_correction_present (vec : list Z) (w : world) (bs : list byte) :
  files w !! filename = Some bs ->
  read_correction vec arguments w
  = (match Cereal.load bs with
     | Ok vec' => Ok (true, vec')
     | Fail e => Fail e
     end,
     record (ReadFile filename) (record (QueryExists filename) w)).
Proof.
  unfold read_correction. cbn [record files]. intros ->.
  destruct (Cereal.load bs); reflexivity.
Qed.

(** Without a stored table the result is the table that is built. *)
Lemma precompute_correction_miss (w : world) :
  treshold_was_set arguments = false ->
  no_artifact arguments w ->
  precompute_correction NDEBUG arguments w
  = match build_correction NDEBUG arguments [] with
    | Ok correction =>
        (Ok correction,
         (write_correction correction arguments
            (record (QueryExists filename) w)).2)
    | Fail e => (Fail e, record (QueryExists filename) w)
    end.
Proof.
  intros Hunset Habsent. unfold precompute_correction.
  rewrite Hunset, read_correction_absent by exact Habsent.
  destruct (build_correction NDEBUG arguments []) as [correction|e];
    [|reflexivity].
  unfold write_correction. destruct (negb (cache_thresholds arguments));
    reflexivity.
Qed.

(** With a stored table the result is whatever the archive makes of its
    bytes. *)
Lemma precompute_correction_hit (w : world) (bs : list byte) :
  treshold_was_set arguments = false ->
  files w !! filename = Some bs ->
  precompute_correction NDEBUG arguments w
  = (Cereal.load bs,
     record (ReadFile filename) (record (QueryExists filename) w)).
Proof.
  intros Hunset Hstored. unfold precompute_correction.
  rewrite Hunset, (read_correction_present _ _ bs) by exact Hstored.
  destruct (Cereal.load bs); reflexivity.
Qed.

Lemma precompute_correction_miss_result (w : world) :
  treshold_was_set arguments = false ->
  no_artifact arguments w ->
  (precompute_correction NDEBUG arguments w).1
  = build_correction NDEBUG arguments [].
Proof.
  intros Hunset Habsent. rewrite precompute_correction_miss by assumption.
  destruct (build_correction NDEBUG arguments []); reflexivity.
Qed.

End Files.

(** ** What the function does around the build *)

(** The second assertion of [precompute_correction] keeps a build from
    returning a table without entries. *)
Lemma build_correction_nonempty {D : Type} `{DoubleOps D}
    (arguments : search_arguments D) (table : list Z) :
  build_correction false arguments [] = Ok table -> table <> [].
Proof.
  unfold build_correction. intros Hrun.
  destruct (assert false _ _) as [[]|e]; simpl in Hrun; [|discriminate].
  destruct (size_div _ _) as [minimal|e]; simpl in Hrun; [|discriminate].
  destruct (reserve _) as [[]|e]; simpl in Hrun; [|discriminate].
  destruct (minimizer_loop _ _ _ _ _ _ _) as [correction|e];
    simpl in Hrun; [|discriminate].
  unfold assert in Hrun. destruct correction as [|c correction].
  - simpl in Hrun. discriminate.
  - simpl in Hrun. injection Hrun as <-. discriminate.
Qed.


(** C7.  If [treshold_was_set] is true, [precompute_correction] returns the
    empty table at once: the file system is what it was, no file operation
    took place (no look-up, no read, no write), and the result does not
    depend on the files that exist. *)
Theorem threshold_set_returns_at_once {D : Type} `{DoubleOps D}
    (NDEBUG : bool) (arguments : search_arguments D) (w : world) :
  treshold_was_set arguments = true ->
  precompute_correction NDEBUG arguments w = (Ok [], w).
Proof.
  intros Hset. unfold precompute_correction. rewrite Hset. reflexivity.
Qed.

Lemma threshold_set_returns_at_once_witness :
  let arguments :=
    Examples.with_threshold_set (Examples.search 250 23 (1 # 100) (5 # 100)) in
  let w := Examples.one_file (correction_path arguments) (Cereal.save [7; 7]) in
  precompute_correction false arguments w = (Ok [], w).
Proof.
  intros arguments w.
  apply (threshold_set_returns_at_once false arguments w).
  reflexivity.
Defined.

(** C10.  The flag [cache_thresholds] guards the write and not the read:
    when it is false, [write_correction] leaves the file system as it is,
    and [precompute_correction] still looks for a stored table, reads it
    and returns it. *)
Theorem cache_flag_guards_only_the_write {D : Type} `{DoubleOps D}
    (NDEBUG : bool) (arguments : search_arguments D) (w : world)
    (vec table : list Z) (bs : list byte) :
  cache_thresholds arguments = false ->
  treshold_was_set arguments = false ->
  files w !! correction_path arguments = Some bs ->
  Cereal.load bs = Ok table ->
  write_correction vec arguments w = (Ok tt, w)
  /\ precompute_correction NDEBUG arguments w
     = (Ok table,
        record (ReadFile (correction_path arguments))
          (record (QueryExists (correction_path arguments)) w)).
Proof.
  intros Hoff Hunset Hstored Hload. split.
  - apply write_correction_disabled, Hoff.
  - rewrite (precompute_correction_hit NDEBUG arguments w bs) by assumption.
    rewrite Hload. reflexivity.
Qed.

Lemma cache_flag_guards_only_the_write_witness :
  let arguments :=
    Examples.without_cache (Examples.search 30 24 (1 # 100) (5 # 100)) in
  let w := Examples.one_file (correction_path arguments) (Cereal.save [7; 7]) in
  write_correction [1; 1; 2; 2; 2; 2] arguments w = (Ok tt, w)
  /\ precompute_correction false arguments w
     = (Ok [7; 7],
        record (ReadFile (correction_path arguments))
          (record (QueryExists (correction_path arguments)) w)).
Proof.
  intros arguments w.
  apply (cache_flag_guards_only_the_write false arguments w
           [1; 1; 2; 2; 2; 2] [7; 7] (Cereal.save [7; 7]));
    vm_compute; reflexivity.
Defined.

(** C8.  With [cache_thresholds] true, a table that a [std::vector<size_t>]
    can hold is read back by [read_correction] exactly as
    [write_correction] stored it for the same parameters. *)
Theorem stored_table_is_read_back {D : Type} `{DoubleOps D}
    (arguments : search_arguments D) (w : world) (table vec : list Z) :
  cache_thresholds arguments = true ->
  vector_of_size_t table ->
  (read_correction vec arguments (write_correction table arguments w).2).1
  = Ok (true, table).
Proof.
  intros Hon Htable. rewrite write_correction_enabled by exact Hon.
  cbn [snd].
  rewrite (read_correction_present arguments vec _ (Cereal.save table)).
  - cbn [fst]. rewrite <- (app_nil_r (Cereal.save table)).
    rewrite load_save by exact Htable. reflexivity.
  - unfold store. cbn [files]. apply lookup_insert_eq.
Qed.

Lemma stored_table_is_read_back_witness :
  let arguments := Examples.search 30 24 (1 # 100) (5 # 100) in
  (read_correction [] arguments
     (write_correction [1; 1; 2; 2; 2; 2] arguments Examples.no_files).2).1
  = Ok (true, [1; 1; 2; 2; 2; 2]).
Proof.
  intros arguments.
  apply (stored_table_is_read_back arguments Examples.no_files
           [1; 1; 2; 2; 2; 2] []).
  - reflexivity.
  - split; [vm_compute; discriminate|].
    repeat constructor; vm_compute; congruence.
Defined.



(** ** A stored table that does not decode *)

(** C4, as the claim has it, fails: a stored file that breaks off after one
    byte is neither skipped nor replaced, the exception of the archive
    leaves [read_correction] and [precompute_correction], although the build
    would have given a table; and a stored file that decodes to a table of
    the wrong length is returned as it is. *)
Lemma damaged_artifact_is_not_rebuilt :
  let arguments := Examples.search 30 24 (1 # 100) (5 # 100) in
  let cut_short := Examples.one_file (correction_path arguments) [x06] in
  let wrong_length :=
    Examples.one_file (correction_path arguments) (Cereal.save [99]) in
  build_correction false arguments [] = Ok [1; 1; 2; 2; 2; 2]
  /\ Cereal.load [x06] = Fail ArchiveException
  /\ (read_correction [] arguments cut_short).1 = Fail ArchiveException
  /\ (precompute_correction false arguments cut_short).1 = Fail ArchiveException
  /\ (precompute_correction false arguments wrong_length).1 = Ok [99].
Proof. vm_compute. repeat split; reflexivity. Qed.

(** C4, amended.  When a file is stored at the derived path,
    [read_correction] never reports that there is none and
    [precompute_correction] never builds: the result is what the archive
    makes of the bytes, a table (whatever its length and entries) or the
    exception it throws, and the stored file is left as it is. *)
Theorem stored_bytes_are_the_result {D : Type} `{DoubleOps D} (NDEBUG : bool)
    (arguments : search_arguments D) (w : world) (bs : list byte) :
  treshold_was_set arguments = false ->
  files w !! correction_path arguments = Some bs ->
  (forall vec, (read_correction vec arguments w).1 <> Ok (false, vec))
  /\ (precompute_correction NDEBUG arguments w).1 = Cereal.load bs
  /\ files (precompute_correction NDEBUG arguments w).2 = files w.
Proof.
  intros Hunset Hstored. repeat split.
  - intros vec. rewrite (read_correction_present arguments vec w bs) by assumption.
    cbn [fst]. destruct (Cereal.load bs); discriminate.
  - rewrite (precompute_correction_hit NDEBUG arguments w bs) by assumption.
    reflexivity.
  - rewrite (precompute_correction_hit NDEBUG arguments w bs) by assumption.
    reflexivity.
Qed.

Lemma stored_bytes_are_the_result_witness :
  let arguments := Examples.search 30 24 (1 # 100) (5 # 100) in
  let w := Examples.one_file (correction_path arguments) [x06] in
  (forall vec, (read_correction vec arguments w).1 <> Ok (false, vec))
  /\ (precompute_correction false arguments w).1 = Cereal.load [x06]
  /\ files (precompute_correction false arguments w).2 = files w.
Proof.
  intros arguments w.
  apply (stored_bytes_are_the_result false arguments w [x06]);
    vm_compute; reflexivity.
Defined.

(** ** Parameters the correction is not defined for *)

(** C6, as the claim has it, fails: with the threshold set,
    [window_size = kmer_size] gives the empty table and no error; and in a
    program compiled with [NDEBUG] the same window is built into a table. *)
Lemma window_of_kmer_size_is_not_reported :
  let arguments := Examples.search 30 20 (1 # 100) (5 # 100) in
  window_size arguments = kmer_size arguments
  /\ precompute_correction false (Examples.with_threshold_set arguments)
       Examples.no_files
     = (Ok [], Examples.no_files)
  /\ (precompute_correction true arguments Examples.no_files).1 = Ok [3].
Proof. vm_compute. repeat split; reflexivity. Qed.

(** A number below zero wraps around once. *)
Lemma wrap_negative (z : Z) :
  - size_t_modulus <= z < 0 -> wrap z = z + size_t_modulus.
Proof.
  intros Hz. unfold wrap. symmetry.
  apply (Z.mod_unique_pos z size_t_modulus (-1)); lia.
Qed.

(** With a window longer than the k-mer the range of minimizer counts is
    empty only for a pattern more than one shorter than the window. *)
Lemma empty_range_pattern_size {D : Type} `{DoubleOps D}
    (arguments : search_arguments D) :
  0 < kmer_size arguments < window_size arguments ->
  maximal_number_of_minimizers arguments
    < minimal_number_of_minimizers arguments ->
  pattern_size arguments < window_size arguments - 1.
Proof.
  unfold minimal_number_of_minimizers, maximal_number_of_minimizers.
  set (k := kmer_size arguments). set (w := window_size arguments).
  set (p := pattern_size arguments). intros Hk Hempty.
  destruct (Z_lt_ge_dec p (w - 1)) as [Hlt|Hge]; [exact Hlt|exfalso].
  pose proof (Z.mul_div_le (p - k + 1) (w - k + 1) ltac:(lia)) as Hmul.
  pose proof (Z.div_pos (p - k + 1) (w - k + 1) ltac:(lia) ltac:(lia)) as Hpos.
  nia.
Qed.

(** An empty range of a window longer than the k-mer: [maximal] wraps
    around and [reserve] is asked for more than a vector can hold. *)
Lemma build_correction_empty_range {D : Type} `{DoubleOps D} (NDEBUG : bool)
    (arguments : search_arguments D) :
  fields_in_range arguments ->
  0 < kmer_size arguments < window_size arguments ->
  window_size arguments <= 2 ^ 62 ->
  pattern_size arguments < window_size arguments - 1 ->
  build_correction NDEBUG arguments [] = Fail LengthError.
Proof.
  intros [Hw Hp] Hk Hbound Hshort. unfold kmer_size in Hk.
  unfold build_correction, assert.
  replace (window_size arguments =? shape_size (shape arguments)) with false
    by (symmetry; apply Z.eqb_neq; lia).
  rewrite orb_true_r. cbn [bind negb].
  unfold size_t_modulus in *.
  rewrite (wrap_small (window_size arguments - _ + 1))
    by (unfold size_t_modulus; lia).
  unfold size_div.
  replace (window_size arguments - shape_size (shape arguments) + 1 =? 0)
    with false by (symmetry; apply Z.eqb_neq; lia).
  cbn [bind].
  rewrite (wrap_negative (pattern_size arguments - window_size arguments + 1))
    by (unfold size_t_modulus; lia).
  set (kpp := wrap (pattern_size arguments - shape_size (shape arguments) + 1)).
  set (kpw := window_size arguments - shape_size (shape arguments) + 1).
  pose proof (wrap_range
                (pattern_size arguments - shape_size (shape arguments) + 1))
    as Hkpp. fold kpp in Hkpp.
  pose proof (Z.mul_div_le kpp kpw ltac:(lia)) as Hmul.
  pose proof (Z.div_pos kpp kpw ltac:(lia) ltac:(lia)) as Hpos.
  unfold size_t_modulus in *.
  assert (2 * (kpp / kpw) <= kpp) as Hhalf by nia.
  rewrite wrap_small by (unfold size_t_modulus; lia).
  unfold reserve, vector_max_size.
  replace (_ <=? 2 ^ 60 - 1) with false by (symmetry; apply Z.leb_gt; lia).
  reflexivity.
Qed.

(** The loop only ever appends to the table. *)
Lemma minimizer_loop_extends {D : Type} `{DoubleOps D} (fuel : nat) :
  forall (fpr_ inv_fpr bound : D) (maximal n : Z) (correction table : list Z),
    minimizer_loop fuel fpr_ inv_fpr bound maximal n correction = Ok table ->
    exists cs, table = correction ++ cs.
Proof.
  induction fuel as [|fuel IH]; intros fpr_ inv_fpr bound maximal n correction
    table Hrun; simpl in Hrun; destruct (n <=? maximal);
    try discriminate;
    try (injection Hrun as <-; exists []; by rewrite app_nil_r).
  destruct (correction_entry fpr_ inv_fpr bound n) as [c|e];
    simpl in Hrun; [|discriminate].
  apply IH in Hrun as (cs & ->). exists (c :: cs). by rewrite <- app_assoc.
Qed.

(** A loop that leaves the table empty has not run once. *)
Lemma minimizer_loop_empty {D : Type} `{DoubleOps D} (fuel : nat)
    (fpr_ inv_fpr bound : D) (maximal n : Z) :
  minimizer_loop (S fuel) fpr_ inv_fpr bound maximal n [] = Ok [] ->
  maximal < n.
Proof.
  cbn [minimizer_loop]. destruct (Z.leb_spec n maximal) as [Hle|Hgt];
    [|intros _; exact Hgt].
  destruct (correction_entry fpr_ inv_fpr bound n) as [c|e];
    cbn [bind]; [|discriminate].
  intros Hrun. apply minimizer_loop_extends in Hrun as (cs & Hcs).
  discriminate.
Qed.

(** No build returns a table without entries, with or without the
    assertions: a range that is empty in the arithmetic of [size_t] asks
    [reserve] for more than a vector can hold. *)
Lemma build_correction_never_empty {D : Type} `{DoubleOps D} (NDEBUG : bool)
    (arguments : search_arguments D) :
  0 <= window_size arguments < size_t_modulus ->
  build_correction NDEBUG arguments [] <> Ok [].
Proof.
  intros Hw. unfold build_correction. intros Hrun.
  destruct (assert NDEBUG _ _) as [[]|e]; cbn [bind] in Hrun; [|discriminate].
  destruct (size_div _ _) as [minimal|e] eqn:Hdiv; cbn [bind] in Hrun;
    [|discriminate].
  destruct (reserve _) as [[]|e] eqn:Hreserve; cbn [bind] in Hrun;
    [|discriminate].
  destruct (minimizer_loop _ _ _ _ _ _ _) as [correction|e] eqn:Hloop;
    cbn [bind] in Hrun; [|discriminate].
  destruct (assert NDEBUG _ _) as [[]|e]; cbn [bind] in Hrun; [|discriminate].
  injection Hrun as ->.
  replace (Z.to_nat
             (wrap (pattern_size arguments - window_size arguments + 1)
              - minimal) + 2)%nat
    with (S (S (Z.to_nat
                  (wrap (pattern_size arguments - window_size arguments + 1)
                   - minimal)))) in Hloop by lia.
  apply minimizer_loop_empty in Hloop.
  set (K := shape_size (shape arguments)) in *.
  assert (0 <= K < 256) as HK by (apply Z.mod_pos_bound; lia).
  set (kpw := wrap (window_size arguments - K + 1)) in *.
  set (kpp := wrap (pattern_size arguments - K + 1)) in *.
  set (maximal := wrap (pattern_size arguments - window_size arguments + 1))
    in *.
  pose proof (wrap_range (window_size arguments - K + 1)) as Hkpw.
  pose proof (wrap_range (pattern_size arguments - K + 1)) as Hkpp.
  pose proof (wrap_range (pattern_size arguments - window_size arguments + 1))
    as Hmax.
  fold kpw in Hkpw. fold kpp in Hkpp. fold maximal in Hmax.
  unfold size_div in Hdiv.
  destruct (Z.eqb_spec kpw 0) as [|Hnonzero]; [discriminate|].
  injection Hdiv as <-.
  pose proof (Z.mul_div_le kpp kpw ltac:(lia)) as Hmul.
  pose proof (Z.div_pos kpp kpw ltac:(lia) ltac:(lia)) as Hpos.
  assert (kpp / kpw <= kpp) as Hle by nia.
  unfold reserve in Hreserve.
  destruct (Z.leb_spec (wrap (maximal - kpp / kpw)) vector_max_size)
    as [Hfits|]; [|discriminate].
  rewrite wrap_negative in Hfits by lia.
  unfold size_t_modulus, vector_max_size in *.
  destruct (Z.eq_dec kpw 1) as [Hone|Hmore].
  - assert (window_size arguments = K) as HwK.
    { unfold kpw, wrap, size_t_modulus in Hone.
      pose proof (Z.div_mod (window_size arguments - K + 1) (2 ^ 64)
                    ltac:(lia)) as Hdm.
      rewrite Hone in Hdm. lia. }
    rewrite Hone, Z.div_1_r in Hloop.
    unfold maximal, kpp in Hloop. rewrite HwK in Hloop. lia.
  - assert (2 * (kpp / kpw) <= kpp) as Hhalf by nia. lia.
Qed.

(** C6, amended.  With the threshold set, [precompute_correction] returns
    the empty table for every parameter tuple and reports nothing.  With
    the threshold not set and no stored table: an empty range (the window
    longer than the k-mer and at most [2^62], [maximal] below [minimal])
    ends the call, with or without the assertions, in the
    [std::length_error] of [reserve], before anything is written; a window
    as long as the k-mer stops the program at the first assertion when the
    assertions are compiled in; and the table that is returned is never
    empty, with or without the assertions. *)
Theorem outcomes_for_unsuitable_parameters {D : Type} `{DoubleOps D}
    (NDEBUG : bool) (arguments : search_arguments D) (w : world) :
  (treshold_was_set arguments = true ->
   precompute_correction NDEBUG arguments w = (Ok [], w))
  /\ (treshold_was_set arguments = false ->
      no_artifact arguments w ->
      fields_in_range arguments ->
      (0 < kmer_size arguments < window_size arguments ->
       window_size arguments <= 2 ^ 62 ->
       maximal_number_of_minimizers arguments
         < minimal_number_of_minimizers arguments ->
       precompute_correction NDEBUG arguments w
       = (Fail LengthError,
          record (QueryExists (correction_path arguments)) w))
      /\ (window_size arguments = kmer_size arguments ->
          precompute_correction false arguments w
          = (Fail (AssertionFailed "arguments.window_size != kmer_size"),
             record (QueryExists (correction_path arguments)) w))
      /\ (precompute_correction NDEBUG arguments w).1 <> Ok []).
Proof.
  split.
  - intros Hset. unfold precompute_correction. rewrite Hset. reflexivity.
  - intros Hunset Habsent Hfields. split; [|split].
    + intros Hk Hbound Hempty.
      rewrite precompute_correction_miss by assumption.
      rewrite build_correction_empty_range;
        [reflexivity|assumption..|].
      apply empty_range_pattern_size; assumption.
    + intros Hwindow. rewrite precompute_correction_miss by assumption.
      unfold build_correction, assert, kmer_size in *.
      rewrite Hwindow, Z.eqb_refl. reflexivity.
    + rewrite precompute_correction_miss_result by assumption.
      apply build_correction_never_empty, Hfields.
Qed.

Lemma outcomes_for_unsuitable_parameters_witness :
  let short := Examples.search 10 24 (1 # 100) (5 # 100) in
  let narrow := Examples.search 30 20 (1 # 100) (5 # 100) in
  precompute_correction true short Examples.no_files
  = (Fail LengthError,
     record (QueryExists (correction_path short)) Examples.no_files)
  /\ precompute_correction false narrow Examples.no_files
     = (Fail (AssertionFailed "arguments.window_size != kmer_size"),
        record (QueryExists (correction_path narrow)) Examples.no_files).
Proof.
  intros short narrow. split.
  - apply (outcomes_for_unsuitable_parameters true short Examples.no_files);
      try reflexivity; repeat split; vm_compute; congruence.
  - apply (outcomes_for_unsuitable_parameters false narrow Examples.no_files);
      try reflexivity; repeat split; vm_compute; congruence.
Defined.

(** ** The table that is built *)

Section BuiltTable.

Context {D : Type} `{DoubleOps D}.
Variable NDEBUG : bool.
Variable arguments : search_arguments D.
Hypothesis valid : valid_arguments arguments.

#[local] Abbreviation minimal := (minimal_number_of_minimizers arguments).
#[local] Abbreviation maximal := (maximal_number_of_minimizers arguments).

(** A table returned for a valid tuple without a stored table is the table
    of the build. *)
Lemma returned_table_entries (w w' : world) (table : list Z) :
  no_artifact arguments w ->
  precompute_correction NDEBUG arguments w = (Ok table, w') ->
  entries_for (fpr arguments) (p_max arguments)
    (seqZ minimal (maximal + 1 - minimal)) table.
Proof.
  intros Habsent Hrun.
  assert (treshold_was_set arguments = false) as Hunset by apply valid.
  apply (build_correction_entries NDEBUG arguments valid).
  rewrite <- (precompute_correction_miss_result NDEBUG arguments w) by assumption.
  rewrite Hrun. reflexivity.
Qed.

(** The entry for [n] is at index [n - minimal]. *)
Lemma entries_for_lookup (table : list Z) (n : Z) :
  entries_for (fpr arguments) (p_max arguments)
    (seqZ minimal (maximal + 1 - minimal)) table ->
  minimal <= n <= maximal ->
  exists c, table !! Z.to_nat (n - minimal) = Some c
            /\ correction_entry (fpr arguments) (d_sub d_one (fpr arguments))
                 (p_max arguments) n = Ok c.
Proof.
  intros Hentries Hn.
  destruct (Forall2_lookup_l _ _ _ (Z.to_nat (n - minimal)) n Hentries)
    as (c & Hc & Hentry).
  - rewrite lookup_seqZ_lt by lia. f_equal. lia.
  - exists c. split; assumption.
Qed.

(** A table is returned whenever the range fits a vector and every scan
    finds, inside its row, a count whose probability is below the bound. *)
Lemma table_is_returned (w : world) :
  no_artifact arguments w ->
  maximal - minimal <= vector_max_size ->
  (forall n, minimal <= n <= maximal ->
     exists k, 1 <= k <= n
       /\ d_ge (false_positive_probability (fpr arguments) n k)
               (p_max arguments) = false) ->
  exists table w', precompute_correction NDEBUG arguments w = (Ok table, w').
Proof.
  intros Habsent Hsize Hcut.
  assert (treshold_was_set arguments = false) as Hunset by apply valid.
  destruct (build_correction_total NDEBUG arguments valid Hsize Hcut)
    as (table & Hbuild).
  rewrite precompute_correction_miss by assumption. rewrite Hbuild.
  eexists _, _. reflexivity.
Qed.

End BuiltTable.



(** C5.  For a valid parameter tuple the table that is built has
    [maximal - minimal + 1] entries, where [minimal] is the quotient of
    [pattern_size - kmer_size + 1] by [window_size - kmer_size + 1] rounded
    down and [maximal] is [pattern_size - window_size + 1], and the entry
    at index [n - minimal] is the correction computed for [n]. *)
Theorem table_covers_the_range {D : Type} `{DoubleOps D}
    (NDEBUG : bool) (arguments : search_arguments D) (w w' : world)
    (table : list Z) :
  valid_arguments arguments ->
  no_artifact arguments w ->
  precompute_correction NDEBUG arguments w = (Ok table, w') ->
  Z.of_nat (length table)
  = maximal_number_of_minimizers arguments
    - minimal_number_of_minimizers arguments + 1
  /\ forall n,
       minimal_number_of_minimizers arguments <= n
         <= maximal_number_of_minimizers arguments ->
       exists c,
         table !! Z.to_nat (n - minimal_number_of_minimizers arguments) = Some c
         /\ correction_entry (fpr arguments) (d_sub d_one (fpr arguments))
              (p_max arguments) n = Ok c.
Proof.
  intros Hvalid Habsent Hrun.
  pose proof (valid_range arguments Hvalid) as (Hmin & Hmax).
  pose proof (returned_table_entries NDEBUG arguments Hvalid w w' table
                Habsent Hrun) as Hentries.
  split.
  - apply Forall2_length in Hentries. rewrite length_seqZ in Hentries. lia.
  - intros n Hn. apply entries_for_lookup; assumption.
Qed.

Lemma table_covers_the_range_witness :
  let arguments := Examples.search 30 24 (1 # 100) (5 # 100) in
  Z.of_nat (length [1; 1; 2; 2; 2; 2])
  = maximal_number_of_minimizers arguments
    - minimal_number_of_minimizers arguments + 1
  /\ forall n,
       minimal_number_of_minimizers arguments <= n
         <= maximal_number_of_minimizers arguments ->
       exists c,
         [1; 1; 2; 2; 2; 2]
           !! Z.to_nat (n - minimal_number_of_minimizers arguments) = Some c
         /\ correction_entry (fpr arguments) (d_sub d_one (fpr arguments))
              (p_max arguments) n = Ok c.
Proof.
  intros arguments.
  apply (table_covers_the_range false arguments Examples.no_files
           (precompute_correction false arguments Examples.no_files).2
           [1; 1; 2; 2; 2; 2]).
  - repeat split; vm_compute; congruence.
  - reflexivity.
  - vm_compute. reflexivity.
Defined.

(** C2.  The scan leaves the row.  For the pattern as long as the window,
    with [fpr = 0.05] and [p_max = 0.01], both between 0 and 1, the only
    number of minimizers is 1, the row of binomial coefficients has two
    entries, the probability of one false positive is not below the bound,
    and the next evaluation reads [binom_coeff[2]]. *)
Lemma scan_reads_past_the_row :
  let arguments := Examples.search 24 24 (1 # 100) (5 # 100) in
  let rate := fpr arguments in
  valid_arguments arguments
  /\ (0 < rate < 1)%Q /\ (0 < p_max arguments < 1)%Q
  /\ minimal_number_of_minimizers arguments = 1
  /\ maximal_number_of_minimizers arguments = 1
  /\ pascal_row 1 = [1; 1]
  /\ d_ge (false_positive_probability rate 1 1) (p_max arguments) = true
  /\ binom rate (d_sub d_one rate) (pascal_row 1) 1 2 = Fail (OutOfRange 2 2)
  /\ (precompute_correction false arguments Examples.no_files).1
     = Fail (OutOfRange 2 2).
Proof.
  intros arguments rate.
  repeat split; vm_compute; congruence.
Qed.

(** ** The name of the stored table *)

Section Text.

#[local] Open Scope string_scope.

Lemma append_empty (t : string) : "" ++ t = t.
Proof. reflexivity. Qed.

Lemma append_String (c : ascii) (s t : string) :
  String c s ++ t = String c (s ++ t).
Proof. reflexivity. Qed.

Lemma append_assoc (s t u : string) : (s ++ t) ++ u = s ++ (t ++ u).
Proof.
  induction s as [|c s IH]; rewrite ?append_empty, ?append_String;
    [|rewrite IH]; reflexivity.
Qed.

Lemma free_append (c : ascii) (s t : string) :
  free c (s ++ t) = free c s && free c t.
Proof.
  induction s as [|x s IH]; rewrite ?append_empty, ?append_String;
    cbn [free]; [reflexivity|].
  rewrite IH, andb_assoc. reflexivity.
Qed.

(** The first [0.] of a text that begins with a part without a point and
    goes on with [0.] is that one. *)
Lemma erase_first_zero_dot_after (s t : string) :
  free "." s = true ->
  erase_first_zero_dot (s ++ "0." ++ t) = s ++ t.
Proof.
  change ("0." ++ t) with (String "0" (String "." t)).
  induction s as [|c s IH]; intros Hfree; [reflexivity|].
  cbn [free] in Hfree. apply andb_true_iff in Hfree as [Hc Hs].
  specialize (IH Hs). rewrite !(append_String c).
  destruct s as [|c' s].
  - rewrite !append_empty. cbn [erase_first_zero_dot].
    change (Ascii.eqb "0" ".") with false. rewrite andb_false_r.
    reflexivity.
  - rewrite !(append_String c') in *. cbn [free] in Hs.
    apply andb_true_iff in Hs as [Hc' _]. apply negb_true_iff in Hc'.
    cbn [erase_first_zero_dot] in *. rewrite Hc', andb_false_r.
    f_equal. exact IH.
Qed.

(** A text is cut at the first occurrence of a separator in one way. *)
Lemma cut_unique (c : ascii) (s1 s2 r1 r2 : string) :
  free c s1 = true -> free c s2 = true ->
  s1 ++ String c r1 = s2 ++ String c r2 ->
  s1 = s2 /\ r1 = r2.
Proof.
  revert s2. induction s1 as [|x s1 IH]; intros [|y s2] H1 H2 Heq;
    rewrite ?append_empty, ?append_String in Heq; cbn [free] in *.
  - injection Heq as ->. split; reflexivity.
  - injection Heq as <- _. rewrite Ascii.eqb_refl in H2. discriminate.
  - injection Heq as -> _. rewrite Ascii.eqb_refl in H1. discriminate.
  - injection Heq as -> Heq.
    apply andb_true_iff in H1 as [_ H1]. apply andb_true_iff in H2 as [_ H2].
    destruct (IH s2 H1 H2 Heq) as [-> ->]. split; reflexivity.
Qed.

Lemma free_hex_digits (c : ascii) (d : Hexadecimal.uint) :
  HexadecimalString.uint_of_char c (Some Hexadecimal.Nil) = None ->
  free c (HexadecimalString.NilEmpty.string_of_uint d) = true.
Proof.
  intros Hc. induction d as [|d IH|d IH|d IH|d IH|d IH|d IH|d IH|d IH
                              |d IH|d IH|d IH|d IH|d IH|d IH|d IH|d IH];
    [reflexivity|..];
    cbn [HexadecimalString.NilEmpty.string_of_uint free];
    rewrite IH, andb_true_r;
    apply negb_true_iff, Ascii.eqb_neq; intros <-; discriminate.
Qed.

Lemma free_hex (c : ascii) (x : Z) :
  HexadecimalString.uint_of_char c (Some Hexadecimal.Nil) = None ->
  free c (hex x) = true.
Proof. intros Hc. apply free_hex_digits, Hc. Qed.

Lemma hex_inj (x y : Z) : 0 <= x -> 0 <= y -> hex x = hex y -> x = y.
Proof.
  intros Hx Hy Heq. unfold hex in Heq.
  assert (N.to_hex_uint (Z.to_N x) = N.to_hex_uint (Z.to_N y)) as Hd.
  { apply (f_equal HexadecimalString.NilEmpty.uint_of_string) in Heq.
    rewrite !HexadecimalString.NilEmpty.usu in Heq. congruence. }
  apply HexadecimalN.Unsigned.to_uint_inj in Hd.
  apply Z2N.inj; assumption.
Qed.

Lemma shape_to_ulong_nonneg (s : shape_t) : 0 <= shape_to_ulong s.
Proof.
  induction s as [|b s IH]; simpl; [lia|]. destruct b; simpl; lia.
Qed.

End Text.

Section Key.

Context {D : Type} `{DoubleOps D}.

#[local] Open Scope string_scope.

(** The name when both probabilities are printed in fixed notation: the two
    erasures take the [0.] off each of them. *)
Lemma correction_filename_of_fractions (arguments : search_arguments D)
    (dp df : string) :
  d_print (p_max arguments) = "0." ++ dp ->
  free "." dp = true ->
  d_print (fpr arguments) = "0." ++ df ->
  correction_filename arguments
  = "correction_" ++ hex (pattern_size arguments)
      ++ "_" ++ hex (window_size arguments)
      ++ "_" ++ hex (shape_to_ulong (shape arguments))
      ++ "_" ++ dp ++ "_" ++ df ++ ".bin".
Proof.
  intros Hp Hdp Hf. unfold correction_filename. rewrite Hp, Hf.
  set (hp := hex (pattern_size arguments)).
  set (hw := hex (window_size arguments)).
  set (hs := hex (shape_to_ulong (shape arguments))).
  assert (free "." ("correction_" ++ hp ++ "_" ++ hw ++ "_" ++ hs ++ "_") = true)
    as Hfree.
  { rewrite !free_append. unfold hp, hw, hs.
    rewrite !free_hex by reflexivity. reflexivity. }
  replace ("correction_" ++ hp ++ "_" ++ hw ++ "_" ++ hs ++ "_"
             ++ ("0." ++ dp) ++ "_" ++ ("0." ++ df) ++ ".bin")
    with (("correction_" ++ hp ++ "_" ++ hw ++ "_" ++ hs ++ "_")
            ++ "0." ++ (dp ++ "_" ++ ("0." ++ df) ++ ".bin"))
    by (rewrite !append_assoc; reflexivity).
  rewrite erase_first_zero_dot_after by exact Hfree.
  replace (("correction_" ++ hp ++ "_" ++ hw ++ "_" ++ hs ++ "_")
             ++ dp ++ "_" ++ ("0." ++ df) ++ ".bin")
    with ((("correction_" ++ hp ++ "_" ++ hw ++ "_" ++ hs ++ "_") ++ dp ++ "_")
            ++ "0." ++ (df ++ ".bin"))
    by (rewrite !append_assoc; reflexivity).
  rewrite erase_first_zero_dot_after
    by (rewrite free_append, Hfree, free_append, Hdp; reflexivity).
  rewrite !append_assoc. reflexivity.
Qed.

(** What the name depends on. *)
Lemma correction_filename_fields (a b : search_arguments D) :
  pattern_size a = pattern_size b ->
  window_size a = window_size b ->
  shape_to_ulong (shape a) = shape_to_ulong (shape b) ->
  d_print (p_max a) = d_print (p_max b) ->
  d_print (fpr a) = d_print (fpr b) ->
  correction_filename a = correction_filename b.
Proof.
  intros Hp Hw Hs Hb Hf. unfold correction_filename.
  rewrite Hp, Hw, Hs, Hb, Hf. reflexivity.
Qed.

End Key.

(** C3, as the claim has it, fails: 0.25 and 0.25 + 2^-40 are two values of
    a [double], both are printed as [0.25], and two parameter tuples that
    differ in nothing but this [p_max] have the same name for their stored
    table. *)
Lemma names_of_close_bounds_collide :
  let a := Examples.search 250 23 (1 # 4) (5 # 100) in
  let b := Examples.search 250 23 ((1 # 4) + (1 # 2 ^ 40)) (5 # 100) in
  ~ (p_max a == p_max b)%Q
  /\ pattern_size a = pattern_size b
  /\ window_size a = window_size b
  /\ shape a = shape b
  /\ fpr a = fpr b
  /\ correction_filename a = "correction_fa_17_fffff_25_05.bin"%string
  /\ correction_filename b = "correction_fa_17_fffff_25_05.bin"%string.
Proof.
  intros a b. split; [|repeat split; vm_compute; reflexivity].
  vm_compute. discriminate.
Qed.

(** C3, amended.  On parameter tuples whose [p_max] and [fpr] are printed
    in fixed notation, two tuples have the same name exactly when they
    agree on [pattern_size], [window_size], [shape.to_ulong()] and on the
    six significant digits that are printed of [p_max] and of [fpr]. *)
Theorem names_agree_on_printed_fields {D : Type} `{DoubleOps D}
    (a b : search_arguments D) :
  fields_in_range a -> fields_in_range b ->
  printed_as_fraction (d_print (p_max a)) ->
  printed_as_fraction (d_print (fpr a)) ->
  printed_as_fraction (d_print (p_max b)) ->
  printed_as_fraction (d_print (fpr b)) ->
  correction_filename a = correction_filename b
  <-> pattern_size a = pattern_size b
      /\ window_size a = window_size b
      /\ shape_to_ulong (shape a) = shape_to_ulong (shape b)
      /\ d_print (p_max a) = d_print (p_max b)
      /\ d_print (fpr a) = d_print (fpr b).
Proof.
  intros [Hwa Hpa] [Hwb Hpb] (dpa & Hdpa & Hdota & Hsepa)
    (dfa & Hdfa & Hdotfa & Hsepfa) (dpb & Hdpb & Hdotb & Hsepb)
    (dfb & Hdfb & Hdotfb & Hsepfb).
  split.
  - rewrite (correction_filename_of_fractions a dpa dfa) by assumption.
    rewrite (correction_filename_of_fractions b dpb dfb) by assumption.
    intros Heq. apply String.app_inj in Heq.
    apply cut_unique in Heq as [Hp Heq]; [|apply free_hex; reflexivity..].
    apply cut_unique in Heq as [Hw Heq]; [|apply free_hex; reflexivity..].
    apply cut_unique in Heq as [Hs Heq]; [|apply free_hex; reflexivity..].
    apply cut_unique in Heq as [Hb Heq]; [|assumption..].
    apply cut_unique in Heq as [Hf _]; [|assumption..].
    apply hex_inj in Hp; [|lia..]. apply hex_inj in Hw; [|lia..].
    apply hex_inj in Hs; [|apply shape_to_ulong_nonneg..].
    rewrite Hdpa, Hdpb, Hdfa, Hdfb, Hb, Hf. repeat split; assumption.
  - intros (Hp & Hw & Hs & Hb & Hf).
    apply correction_filename_fields; assumption.
Qed.

Lemma names_agree_on_printed_fields_witness :
  let a := Examples.search 250 23 (1 # 4) (5 # 100) in
  let b := Examples.search 250 23 (15 # 100) (5 # 100) in
  correction_filename a = correction_filename b
  <-> pattern_size a = pattern_size b
      /\ window_size a = window_size b
      /\ shape_to_ulong (shape a) = shape_to_ulong (shape b)
      /\ d_print (p_max a) = d_print (p_max b)
      /\ d_print (fpr a) = d_print (fpr b).
Proof.
  intros a b.
  apply (names_agree_on_printed_fields a b).
  - split; vm_compute; split; congruence.
  - split; vm_compute; split; congruence.
  - exists "25"%string. repeat split; vm_compute; reflexivity.
  - exists "05"%string. repeat split; vm_compute; reflexivity.
  - exists "15"%string. repeat split; vm_compute; reflexivity.
  - exists "05"%string. repeat split; vm_compute; reflexivity.
Defined.

(** * Further facts about [precompute_correction.cpp] *)

(** ** What a call does to the files *)

Section Effects.

Context {D : Type} `{DoubleOps D}.
Variable NDEBUG : bool.
Variable arguments : search_arguments D.

(** Every entry that the loops append is a [size_t]. *)
Lemma minimizer_loop_size_t (fuel : nat) :
  forall (fpr_ inv_fpr bound : D) (maximal n : Z) (correction table : list Z),
    Forall (fun x => 0 <= x < size_t_modulus) correction ->
    minimizer_loop fuel fpr_ inv_fpr bound maximal n correction = Ok table ->
    Forall (fun x => 0 <= x < size_t_modulus) table.
Proof.
  induction fuel as [|fuel IH]; intros fpr_ inv_fpr bound maximal n correction
    table Hall Hrun; simpl in Hrun; destruct (n <=? maximal);
    try discriminate; try (injection Hrun as <-; exact Hall).
  destruct (correction_entry fpr_ inv_fpr bound n) as [c|e] eqn:Hentry;
    simpl in Hrun; [|discriminate].
  apply IH in Hrun; [exact Hrun|].
  apply Forall_app. split; [exact Hall|]. constructor; [|constructor].
  unfold correction_entry in Hentry.
  destruct (scan_loop _ _ _ _ _ _ _); simpl in Hentry; [|discriminate].
  injection Hentry as <-. apply wrap_range.
Qed.

Lemma build_correction_size_t (table : list Z) :
  build_correction NDEBUG arguments [] = Ok table ->
  Forall (fun x => 0 <= x < size_t_modulus) table.
Proof.
  unfold build_correction. intros Hrun.
  destruct (assert NDEBUG _ _) as [[]|e]; simpl in Hrun; [|discriminate].
  destruct (size_div _ _) as [minimal|e]; simpl in Hrun; [|discriminate].
  destruct (reserve _) as [[]|e]; simpl in Hrun; [|discriminate].
  destruct (minimizer_loop _ _ _ _ _ _ _) as [correction|e] eqn:Hloop;
    simpl in Hrun; [|discriminate].
  destruct (assert NDEBUG _ _) as [[]|e]; simpl in Hrun; [|discriminate].
  injection Hrun as <-.
  apply minimizer_loop_size_t in Hloop; [exact Hloop|constructor].
Qed.

(** The four ways a call can go. *)
Lemma precompute_correction_cases (w : world) :
  let p := correction_path arguments in
  (treshold_was_set arguments = true
   /\ precompute_correction NDEBUG arguments w = (Ok [], w))
  \/ (exists bs, treshold_was_set arguments = false
        /\ files w !! p = Some bs
        /\ precompute_correction NDEBUG arguments w
           = (Cereal.load bs, record (ReadFile p) (record (QueryExists p) w)))
  \/ (exists e, treshold_was_set arguments = false
        /\ no_artifact arguments w
        /\ build_correction NDEBUG arguments [] = Fail e
        /\ precompute_correction NDEBUG arguments w
           = (Fail e, record (QueryExists p) w))
  \/ (exists table, treshold_was_set arguments = false
        /\ no_artifact arguments w
        /\ build_correction NDEBUG arguments [] = Ok table
        /\ precompute_correction NDEBUG arguments w
           = (Ok table,
              if cache_thresholds arguments
              then store p (Cereal.save table) (record (QueryExists p) w)
              else record (QueryExists p) w)).
Proof.
  intros p. destruct (treshold_was_set arguments) eqn:Hset.
  - left. split; [reflexivity|].
    unfold precompute_correction. rewrite Hset. reflexivity.
  - right. destruct (files w !! p) as [bs|] eqn:Hfile.
    + left. exists bs. split; [reflexivity|]. split; [reflexivity|].
      apply precompute_correction_hit; assumption.
    + right. rewrite precompute_correction_miss by assumption.
      destruct (build_correction NDEBUG arguments []) as [table|e].
      * right. exists table. split; [reflexivity|]. split; [exact Hfile|].
        split; [reflexivity|]. unfold write_correction.
        destruct (cache_thresholds arguments); reflexivity.
      * left. exists e. split; [reflexivity|]. split; [exact Hfile|].
        split; reflexivity.
Qed.

End Effects.

(** X1.  A table that one call builds and stores is what a later call
    returns, without building, for every parameter tuple that derives the
    same path: the same tuple, and any other tuple with the same name next
    to the same index. *)
Theorem stored_table_serves_the_same_path {D : Type} `{DoubleOps D}
    (NDEBUG : bool) (a b : search_arguments D) (w w' : world)
    (table : list Z) :
  treshold_was_set a = false ->
  cache_thresholds a = true ->
  no_artifact a w ->
  precompute_correction NDEBUG a w = (Ok table, w') ->
  Z.of_nat (length table) <= vector_max_size ->
  treshold_was_set b = false ->
  correction_path b = correction_path a ->
  files w' !! correction_path a = Some (Cereal.save table)
  /\ precompute_correction NDEBUG b w'
     = (Ok table,
        record (ReadFile (correction_path a))
          (record (QueryExists (correction_path a)) w')).
Proof.
  intros Hunset Hon Habsent Hrun Hlen Hunset' Hpath.
  destruct (precompute_correction_cases NDEBUG a w)
    as [[Hset _]|[(bs & _ & Hfile & _)|[(e & _ & _ & _ & Hcase)
                                       |(t & _ & _ & Hbuild & Hcase)]]].
  - congruence.
  - unfold no_artifact in Habsent. congruence.
  - congruence.
  - rewrite Hcase, Hon in Hrun. injection Hrun as -> <-.
    assert (files (store (correction_path a) (Cereal.save table)
                     (record (QueryExists (correction_path a)) w))
              !! correction_path a = Some (Cereal.save table)) as Hstored
      by apply lookup_insert_eq.
    split; [exact Hstored|].
    rewrite (precompute_correction_hit NDEBUG b _ (Cereal.save table))
      by (rewrite ?Hpath; assumption).
    rewrite Hpath, <- (app_nil_r (Cereal.save table)), load_save;
      [reflexivity|].
    split; [exact Hlen|]. apply (build_correction_size_t NDEBUG a), Hbuild.
Qed.

Lemma stored_table_serves_the_same_path_witness :
  let a := Examples.search 30 24 (1 # 4) (5 # 100) in
  let b := Examples.search 30 24 ((1 # 4) + (1 # 2 ^ 40)) (5 # 100) in
  let w' := (precompute_correction false a Examples.no_files).2 in
  files w' !! correction_path a = Some (Cereal.save [0; 0; 0; 0; 0; 1])
  /\ precompute_correction false b w'
     = (Ok [0; 0; 0; 0; 0; 1],
        record (ReadFile (correction_path a))
          (record (QueryExists (correction_path a)) w')).
Proof.
  intros a b w'.
  apply (stored_table_serves_the_same_path false a b Examples.no_files w'
           [0; 0; 0; 0; 0; 1]);
    vm_compute; congruence.
Defined.

(** X2.  Whatever the parameters and the files are, a call leaves every
    file other than the one at the derived path as it was. *)
Theorem other_files_are_left_alone {D : Type} `{DoubleOps D}
    (NDEBUG : bool) (arguments : search_arguments D) (w : world) (p : path) :
  p <> correction_path arguments ->
  files (precompute_correction NDEBUG arguments w).2 !! p = files w !! p.
Proof.
  intros Hother.
  destruct (precompute_correction_cases NDEBUG arguments w)
    as [[_ ->]|[(bs & _ & _ & ->)|[(e & _ & _ & _ & ->)
                                  |(t & _ & _ & _ & ->)]]];
    try reflexivity.
  destruct (cache_thresholds arguments); [|reflexivity].
  cbn [snd store files record]. apply lookup_insert_ne. congruence.
Qed.

Lemma other_files_are_left_alone_witness :
  let arguments := Examples.search 30 24 (1 # 100) (5 # 100) in
  let index := ["data"; "raptor.index"]%string in
  let w := Examples.one_file index [x00; x01] in
  files (precompute_correction false arguments w).2 !! index = files w !! index.
Proof.
  intros arguments index w.
  apply (other_files_are_left_alone false arguments w index).
  vm_compute. congruence.
Defined.

(** X3.  A call writes nothing when [cache_thresholds] is false, and
    nothing when it ends in an exception ([std::length_error], the
    exception of the archive) or at a failed assertion: the files are then
    what they were. *)
Theorem no_write_without_cache_or_table {D : Type} `{DoubleOps D}
    (NDEBUG : bool) (arguments : search_arguments D) (w : world) :
  cache_thresholds arguments = false
  \/ (precompute_correction NDEBUG arguments w).1 = Fail LengthError
  \/ (precompute_correction NDEBUG arguments w).1 = Fail ArchiveException
  \/ (exists expr,
        (precompute_correction NDEBUG arguments w).1
        = Fail (AssertionFailed expr)) ->
  files (precompute_correction NDEBUG arguments w).2 = files w.
Proof.
  intros Hcase.
  destruct (precompute_correction_cases NDEBUG arguments w)
    as [[_ Hrun]|[(bs & _ & _ & Hrun)|[(e & _ & _ & _ & Hrun)
                                      |(t & _ & _ & _ & Hrun)]]];
    rewrite Hrun in *; try reflexivity.
  cbn [fst] in Hcase.
  destruct Hcase as [->|[Hfail|[Hfail|[expr Hfail]]]];
    [reflexivity|discriminate..].
Qed.

Lemma no_write_without_cache_or_table_witness :
  let arguments := Examples.search 10 24 (1 # 100) (5 # 100) in
  files (precompute_correction false arguments Examples.no_files).2
  = files Examples.no_files.
Proof.
  intros arguments.
  apply (no_write_without_cache_or_table false arguments Examples.no_files).
  right. left. vm_compute. reflexivity.
Defined.

(** ** More about the table of a valid parameter tuple *)

(** X6.  The entry [c] for [n] marks the first count whose probability is
    below the bound, not the last: no count [k] from 1 to [n] with a
    probability below [p_max] is smaller than [c + 1], whatever the
    probabilities of the counts after [c + 1] are. *)
Theorem entry_marks_the_first_count_below {D : Type} `{DoubleOps D}
    (NDEBUG : bool) (arguments : search_arguments D) (w w' : world)
    (table : list Z) (n c k : Z) :
  valid_arguments arguments ->
  no_artifact arguments w ->
  precompute_correction NDEBUG arguments w = (Ok table, w') ->
  minimal_number_of_minimizers arguments <= n
    <= maximal_number_of_minimizers arguments ->
  table !! Z.to_nat (n - minimal_number_of_minimizers arguments) = Some c ->
  1 <= k <= n ->
  d_ge (false_positive_probability (fpr arguments) n k) (p_max arguments)
  = false ->
  c + 1 <= k.
Proof.
  intros Hvalid Habsent Hrun Hn Hc Hk Hbelow.
  pose proof (valid_range arguments Hvalid) as (Hmin & Hmax).
  pose proof (returned_table_entries NDEBUG arguments Hvalid w w' table
                Habsent Hrun) as Hentries.
  destruct (entries_for_lookup arguments table n Hentries Hn)
    as (c' & Hc' & Hentry).
  assert (c' = c) as -> by congruence.
  apply correction_entry_Ok in Hentry; [|lia].
  destruct Hentry as (_ & _ & Hbefore).
  destruct (Z_le_gt_dec (c + 1) k) as [Hle|Hgt]; [exact Hle|].
  rewrite (Hbefore k) in Hbelow by lia. discriminate.
Qed.

Lemma entry_marks_the_first_count_below_witness :
  let arguments := Examples.search 30 24 (1 # 100) (5 # 100) in
  2 + 1 <= 4.
Proof.
  intros arguments.
  apply (entry_marks_the_first_count_below false arguments Examples.no_files
           (precompute_correction false arguments Examples.no_files).2
           [1; 1; 2; 2; 2; 2] 7 2 4).
  - repeat split; vm_compute; congruence.
  - reflexivity.
  - vm_compute. reflexivity.
  - split; vm_compute; congruence.
  - reflexivity.
  - lia.
  - vm_compute. reflexivity.
Defined.

(** X7.  A pattern one shorter than the window has the single number of
    minimizers 0, whose row of binomial coefficients has one element.
    Whatever [fpr] and [p_max] are, the first evaluation of the scan is the
    access [binom_coeff[1]], outside the row.  The result [OutOfRange] of
    the build marks this access; what the program does after it is not
    stated. *)
Theorem no_minimizer_reads_past_the_row {D : Type} `{DoubleOps D}
    (NDEBUG : bool) (arguments : search_arguments D) :
  fields_in_range arguments ->
  treshold_was_set arguments = false ->
  0 < kmer_size arguments < window_size arguments ->
  pattern_size arguments = window_size arguments - 1 ->
  minimal_number_of_minimizers arguments = 0
  /\ maximal_number_of_minimizers arguments = 0
  /\ pascal_row 0 = [1]
  /\ binom (fpr arguments) (d_sub d_one (fpr arguments)) (pascal_row 0) 0 1
     = Fail (OutOfRange 1 1)
  /\ build_correction NDEBUG arguments [] = Fail (OutOfRange 1 1).
Proof.
  intros Hfields Hunset Hk Hp.
  assert (minimal_number_of_minimizers arguments = 0) as Hmin.
  { unfold minimal_number_of_minimizers. rewrite Hp.
    apply Z.div_small. lia. }
  assert (maximal_number_of_minimizers arguments = 0) as Hmax.
  { unfold maximal_number_of_minimizers. lia. }
  assert (valid_arguments arguments) as Hvalid.
  { repeat split; try apply Hfields; try lia; assumption. }
  repeat split; try assumption; try reflexivity.
  rewrite (build_correction_valid NDEBUG arguments Hvalid), Hmin, Hmax.
  reflexivity.
Qed.

Lemma no_minimizer_reads_past_the_row_witness :
  let arguments := Examples.search 23 24 (1 # 100) (5 # 100) in
  minimal_number_of_minimizers arguments = 0
  /\ maximal_number_of_minimizers arguments = 0
  /\ pascal_row 0 = [1]
  /\ binom (fpr arguments) (d_sub d_one (fpr arguments)) (pascal_row 0) 0 1
     = Fail (OutOfRange 1 1)
  /\ build_correction false arguments [] = Fail (OutOfRange 1 1).
Proof.
  intros arguments.
  apply (no_minimizer_reads_past_the_row false arguments);
    try reflexivity; repeat split; vm_compute; congruence.
Defined.

(** X8.  On a valid parameter tuple neither assertion fails: the program
    compiled with [NDEBUG] and the program compiled without it do the same
    to every file system. *)
Theorem assertions_hold_on_valid_arguments {D : Type} `{DoubleOps D}
    (arguments : search_arguments D) (w : world) :
  valid_arguments arguments ->
  precompute_correction true arguments w
  = precompute_correction false arguments w.
Proof.
  intros Hvalid.
  assert (build_correction true arguments []
          = build_correction false arguments []) as Hbuild.
  { pose proof (valid_range arguments Hvalid) as (Hmin & Hmax).
    rewrite !(build_correction_valid _ arguments Hvalid).
    destruct (reserve _) as [[]|e]; [|reflexivity]. cbn [bind].
    destruct (minimizer_loop _ _ _ _ _ _ _) as [correction|e] eqn:Hloop;
      [|reflexivity].
    apply minimizer_loop_Ok in Hloop; [|lia|lia].
    destruct Hloop as (cs & -> & Hcs).
    apply Forall2_length in Hcs. rewrite length_seqZ in Hcs.
    cbn [bind app]. unfold assert.
    replace (Z.of_nat (length cs) =? 0) with false
      by (symmetry; apply Z.eqb_neq; lia).
    reflexivity. }
  assert (treshold_was_set arguments = false) as Hunset by apply Hvalid.
  destruct (files w !! correction_path arguments) as [bs|] eqn:Hfile.
  - rewrite !(precompute_correction_hit _ arguments w bs) by assumption.
    reflexivity.
  - rewrite !precompute_correction_miss by assumption.
    rewrite Hbuild. reflexivity.
Qed.

Lemma assertions_hold_on_valid_arguments_witness :
  let arguments := Examples.search 30 24 (1 # 100) (5 # 100) in
  precompute_correction true arguments Examples.no_files
  = precompute_correction false arguments Examples.no_files.
Proof.
  intros arguments.
  apply (assertions_hold_on_valid_arguments arguments Examples.no_files).
  repeat split; vm_compute; congruence.
Defined.

(** ** More about the name *)

Section Name.

Context {D : Type} `{DoubleOps D}.

#[local] Open Scope string_scope.

(** The search for [0.] passes over a part without a point that ends in an
    underscore. *)
Lemma erase_first_zero_dot_past (s r : string) :
  free "." s = true ->
  erase_first_zero_dot (s ++ String "_" r)
  = s ++ String "_" (erase_first_zero_dot r).
Proof.
  induction s as [|c s IH]; intros Hfree.
  - rewrite !append_empty. destruct r as [|c' r]; reflexivity.
  - cbn [free] in Hfree. apply andb_true_iff in Hfree as [Hc Hs].
    specialize (IH Hs). rewrite !(append_String c).
    destruct s as [|c' s].
    + rewrite !append_empty in *. cbn [erase_first_zero_dot] in *.
      change (Ascii.eqb "_" ".") with false. rewrite andb_false_r.
      f_equal. exact IH.
    + rewrite !(append_String c') in *. cbn [free] in Hs.
      apply andb_true_iff in Hs as [Hc' _]. apply negb_true_iff in Hc'.
      cbn [erase_first_zero_dot] in *. rewrite Hc', andb_false_r.
      f_equal. exact IH.
Qed.

(** The part of the name that comes from the three integers is never
    touched by the two erasures. *)
Lemma correction_filename_head (arguments : search_arguments D) :
  exists tail : string,
    correction_filename arguments
    = "correction_" ++ hex (pattern_size arguments)
        ++ "_" ++ hex (window_size arguments)
        ++ "_" ++ hex (shape_to_ulong (shape arguments))
        ++ "_" ++ tail.
Proof.
  unfold correction_filename.
  set (hp := hex (pattern_size arguments)).
  set (hw := hex (window_size arguments)).
  set (hs := hex (shape_to_ulong (shape arguments))).
  set (rest := d_print (p_max arguments) ++ "_" ++ d_print (fpr arguments)
                 ++ ".bin").
  assert (free "." ("correction_" ++ hp ++ "_" ++ hw ++ "_" ++ hs) = true)
    as Hfree.
  { rewrite !free_append. unfold hp, hw, hs.
    rewrite !free_hex by reflexivity. reflexivity. }
  exists (erase_first_zero_dot (erase_first_zero_dot rest)).
  replace ("correction_" ++ hp ++ "_" ++ hw ++ "_" ++ hs ++ "_" ++ rest)
    with (("correction_" ++ hp ++ "_" ++ hw ++ "_" ++ hs) ++ String "_" rest)
    by (rewrite !append_assoc; reflexivity).
  rewrite !erase_first_zero_dot_past by exact Hfree.
  rewrite !append_assoc. reflexivity.
Qed.

End Name.

(** X9.  Whatever the two probabilities are and however they are printed,
    the name tells the three integers apart: two parameter tuples with the
    same name have the same [pattern_size], the same [window_size] and the
    same [shape.to_ulong()]. *)
Theorem name_determines_the_integers {D : Type} `{DoubleOps D}
    (a b : search_arguments D) :
  fields_in_range a -> fields_in_range b ->
  correction_filename a = correction_filename b ->
  pattern_size a = pattern_size b
  /\ window_size a = window_size b
  /\ shape_to_ulong (shape a) = shape_to_ulong (shape b).
Proof.
  intros [Hwa Hpa] [Hwb Hpb] Heq.
  destruct (correction_filename_head a) as (ta & Ha).
  destruct (correction_filename_head b) as (tb & Hb).
  rewrite Ha, Hb in Heq. apply String.app_inj in Heq.
  apply cut_unique in Heq as [Hp Heq]; [|apply free_hex; reflexivity..].
  apply cut_unique in Heq as [Hw Heq]; [|apply free_hex; reflexivity..].
  apply cut_unique in Heq as [Hs _]; [|apply free_hex; reflexivity..].
  apply hex_inj in Hp; [|lia..]. apply hex_inj in Hw; [|lia..].
  apply hex_inj in Hs; [|apply shape_to_ulong_nonneg..].
  repeat split; assumption.
Qed.

Lemma name_determines_the_integers_witness :
  let a := Examples.search 250 23 (1 # 4) (5 # 100) in
  let b := Examples.search 250 23 ((1 # 4) + (1 # 2 ^ 40)) (5 # 100) in
  pattern_size a = pattern_size b
  /\ window_size a = window_size b
  /\ shape_to_ulong (shape a) = shape_to_ulong (shape b).
Proof.
  intros a b.
  apply (name_determines_the_integers a b).
  - split; vm_compute; split; congruence.
  - split; vm_compute; split; congruence.
  - vm_compute. reflexivity.
Defined.

(** X10.  When [p_max] is printed in fixed notation and the text printed
    for [fpr] has no point and ends in the digit 0 (as [1e-10] does, or
    [0]), the second erasure takes that digit together with the point of
    [.bin]: the name ends in [bin] without a point before it. *)
Theorem name_loses_the_point_of_bin {D : Type} `{DoubleOps D}
    (arguments : search_arguments D) (dp s : string) :
  d_print (p_max arguments) = ("0." ++ dp)%string ->
  free "." dp = true ->
  d_print (fpr arguments) = (s ++ "0")%string ->
  free "." s = true ->
  correction_filename arguments
  = ("correction_" ++ hex (pattern_size arguments)
       ++ "_" ++ hex (window_size arguments)
       ++ "_" ++ hex (shape_to_ulong (shape arguments))
       ++ "_" ++ dp ++ "_" ++ s ++ "bin")%string.
Proof.
  intros Hp Hdp Hf Hs. unfold correction_filename. rewrite Hp, Hf.
  set (hp := hex (pattern_size arguments)).
  set (hw := hex (window_size arguments)).
  set (hs := hex (shape_to_ulong (shape arguments))).
  assert (free "." ("correction_" ++ hp ++ "_" ++ hw ++ "_" ++ hs ++ "_")%string
          = true) as Hfree.
  { rewrite !free_append. unfold hp, hw, hs.
    rewrite !free_hex by reflexivity. reflexivity. }
  replace ("correction_" ++ hp ++ "_" ++ hw ++ "_" ++ hs ++ "_"
             ++ ("0." ++ dp) ++ "_" ++ (s ++ "0") ++ ".bin")%string
    with (("correction_" ++ hp ++ "_" ++ hw ++ "_" ++ hs ++ "_")
            ++ "0." ++ (dp ++ "_" ++ (s ++ "0") ++ ".bin"))%string
    by (rewrite !append_assoc; reflexivity).
  rewrite erase_first_zero_dot_after by exact Hfree.
  replace (("correction_" ++ hp ++ "_" ++ hw ++ "_" ++ hs ++ "_")
             ++ dp ++ "_" ++ (s ++ "0") ++ ".bin")%string
    with ((("correction_" ++ hp ++ "_" ++ hw ++ "_" ++ hs ++ "_")
             ++ dp ++ "_" ++ s) ++ "0." ++ "bin")%string
    by (rewrite !append_assoc; reflexivity).
  rewrite erase_first_zero_dot_after
    by (rewrite free_append, Hfree, !free_append, Hdp, Hs; reflexivity).
  rewrite !append_assoc. reflexivity.
Qed.

Lemma name_loses_the_point_of_bin_witness :
  let arguments := Examples.search 250 23 (15 # 100) (1 # 10 ^ 10) in
  correction_filename arguments = "correction_fa_17_fffff_15_1e-1bin"%string.
Proof.
  intros arguments.
  apply (name_loses_the_point_of_bin arguments "15" "1e-1");
    vm_compute; reflexivity.
Defined.

(** * Facts about [build_parsing.cpp] *)

Section Lines.

Import BuildParsing.

#[local] Open Scope string_scope.

Lemma starts_with_append (p t : string) : starts_with (p ++ t) p = true.
Proof.
  induction p as [|a p IH]; [reflexivity|].
  rewrite append_String. cbn [starts_with].
  rewrite Ascii.eqb_refl, IH. reflexivity.
Qed.

Lemma starts_with_inv (line p : string) :
  starts_with line p = true -> exists t, line = p ++ t.
Proof.
  revert line. induction p as [|a p IH]; intros line Hstarts.
  - exists line. reflexivity.
  - destruct line as [|b line]; cbn [starts_with] in Hstarts; [discriminate|].
    apply andb_true_iff in Hstarts as [Hab Hrest].
    apply Ascii.eqb_eq in Hab as <-.
    destruct (IH line Hrest) as (t & ->). exists t. reflexivity.
Qed.

(** A line of parameters is its two number signs and the rest. *)
Lemma parameter_line (line : string) :
  starts_with line "##" = true ->
  line = "##" ++ remove_prefix 2 line
  /\ (1 <? Z.of_nat (String.length line))%Z = true.
Proof.
  intros Hstarts. apply starts_with_inv in Hstarts as (t & ->).
  split; [reflexivity|]. apply Z.ltb_lt.
  rewrite !append_String. cbn [String.length]. lia.
Qed.

(** A header line that neither begins with two number signs nor is the
    beginning of two number signs does not begin a line of parameters. *)
Lemma header_is_no_parameter_line (header line : string) :
  starts_with "##" header = false ->
  starts_with header "##" = false ->
  starts_with line "##" = true ->
  starts_with line header = false.
Proof.
  intros Hshort Hlong Hline.
  apply starts_with_inv in Hline as (t & ->).
  destruct header as [|a [|b header]]; cbn [starts_with] in *;
    try discriminate.
  - rewrite andb_true_r in Hshort. rewrite append_String. cbn [starts_with].
    rewrite Hshort. reflexivity.
  - rewrite !append_String. cbn [starts_with].
    rewrite (Ascii.eqb_sym "#" a), (Ascii.eqb_sym "#" b) in Hlong.
    destruct (Ascii.eqb a "#"), (Ascii.eqb b "#"); cbn [andb] in *;
      try reflexivity; discriminate.
Qed.

(** Every sequence of lines is lines of parameters only, or lines of
    parameters and then a first line that is not. *)
Lemma first_other_line (lines : list string) :
  Forall (fun h => starts_with h "##" = true) lines
  \/ exists hs line rest,
       lines = (hs ++ line :: rest)%list
       /\ Forall (fun h => starts_with h "##" = true) hs
       /\ starts_with line "##" = false.
Proof.
  induction lines as [|l lines IH]; [left; constructor|].
  destruct (starts_with l "##") eqn:Hl.
  - destruct IH as [Hall|(hs & line & rest & -> & Hhs & Hline)].
    + left. constructor; assumption.
    + right. exists (l :: hs), line, rest.
      repeat split; [constructor; assumption|exact Hline].
  - right. exists [], l, lines. repeat split; [constructor|exact Hl].
Qed.

(** The loop of [input_is_pack_file] stops at the first line that is not a
    line of parameters ... *)
Lemma skip_parameter_lines_stops (hs : list string) :
  forall (fuel : nat) (line0 line : string) (rest : list string) (g : bool),
    Forall (fun h => starts_with h "##" = true) hs ->
    starts_with line "##" = false ->
    (length hs < fuel)%nat ->
    skip_parameter_lines fuel
      {| unread := (hs ++ line :: rest)%list; good_at_end := g |} line0
    = Ok line.
Proof.
  induction hs as [|h hs IH]; intros [|fuel] line0 line rest g Hhs Hline Hfuel;
    cbn [length] in Hfuel; try lia.
  - cbn [app skip_parameter_lines getline unread good_at_end].
    rewrite Hline. reflexivity.
  - inversion Hhs as [|? ? Hh Hhs']; subst.
    cbn [app skip_parameter_lines getline unread good_at_end].
    rewrite Hh. cbn [andb]. apply IH; [assumption|assumption|lia].
Qed.

Lemma last_nonempty {A : Type} (l : list A) (x d d' : A) :
  List.last (x :: l) d = List.last (x :: l) d'.
Proof.
  revert x. induction l as [|y l IH]; intros x; [reflexivity|].
  change (List.last (y :: l) d = List.last (y :: l) d'). apply IH.
Qed.

(** ... and, when there is none, with the empty string if the text ended
    with a line feed, and with the last line, left in the string by the
    [getline] that failed, if it did not. *)
Lemma skip_parameter_lines_end (hs : list string) :
  forall (fuel : nat) (line0 : string) (g : bool),
    Forall (fun h => starts_with h "##" = true) hs ->
    (length hs < fuel)%nat ->
    skip_parameter_lines fuel {| unread := hs; good_at_end := g |} line0
    = Ok (if g then "" else List.last hs line0).
Proof.
  induction hs as [|h hs IH]; intros [|fuel] line0 g Hhs Hfuel;
    cbn [length] in Hfuel; try lia.
  - cbn [skip_parameter_lines getline unread good_at_end].
    destruct g; reflexivity.
  - inversion Hhs as [|? ? Hh Hhs']; subst.
    cbn [skip_parameter_lines getline unread good_at_end]. rewrite Hh.
    cbn [andb]. rewrite IH by (assumption || lia).
    destruct g; [reflexivity|]. destruct hs as [|h' hs]; [reflexivity|].
    change (List.last (h :: h' :: hs) line0)
      with (List.last (h' :: hs) line0).
    f_equal. apply last_nonempty.
Qed.

Lemma last_Forall {A : Type} (P : A -> Prop) (l : list A) (d : A) :
  P d -> Forall P l -> P (List.last l d).
Proof.
  intros Hd Hl. revert d Hd.
  induction Hl as [|x l Hx Hl IH]; intros d Hd; [exact Hd|].
  destruct l as [|y l]; [exact Hx|]. apply (IH d Hd).
Qed.

(** The first line that is not a line of parameters is found in one way. *)
Lemma first_other_line_unique (hs hs' : list string) :
  forall (line line' : string) (rest rest' : list string),
    Forall (fun h => starts_with h "##" = true) hs ->
    Forall (fun h => starts_with h "##" = true) hs' ->
    starts_with line "##" = false ->
    starts_with line' "##" = false ->
    (hs ++ line :: rest)%list = (hs' ++ line' :: rest')%list ->
    line = line'.
Proof.
  revert hs'. induction hs as [|h hs IH];
    intros [|h' hs'] line line' rest rest' Hhs Hhs' Hline Hline' Heq;
    cbn [app] in Heq; injection Heq as Hhead Htail.
  - exact Hhead.
  - subst h'. inversion Hhs'; subst. congruence.
  - subst h. inversion Hhs; subst. congruence.
  - inversion Hhs; inversion Hhs'; subst. eapply IH; eassumption.
Qed.

(** X11.  [input_is_pack_file] always returns, and it returns true exactly
    when the file has a first line that does not begin with two number
    signs and this line begins with the header of a layout; a file that is
    missing, empty or made of such lines only is no layout file.  The
    header is any text that is not the beginning of [##] and does not begin
    with [##]. *)
Theorem pack_file_is_known_by_its_first_other_line
    (first_header_line : string) (p : path) (w : world) :
  starts_with "##" first_header_line = false ->
  starts_with first_header_line "##" = false ->
  exists answer : bool,
    input_is_pack_file first_header_line p w = Ok answer
    /\ (answer = true
        <-> exists hs line rest,
              unread (open w p) = (hs ++ line :: rest)%list
              /\ Forall (fun h => starts_with h "##" = true) hs
              /\ starts_with line "##" = false
              /\ starts_with line first_header_line = true).
Proof.
  intros Hshort Hlong. unfold input_is_pack_file.
  destruct (open w p) as [lines g]. cbn [unread].
  assert (starts_with "" first_header_line = false) as Hempty.
  { destruct first_header_line; [discriminate|reflexivity]. }
  destruct (first_other_line lines)
    as [Hall|(hs & line & rest & -> & Hhs & Hline)].
  - rewrite skip_parameter_lines_end by (assumption || lia). cbn [bind].
    assert (starts_with (if g then "" else List.last lines "")
              first_header_line = false) as Hno.
    { destruct g; [exact Hempty|].
      apply (last_Forall (fun l => starts_with l first_header_line = false));
        [exact Hempty|].
      eapply Forall_impl; [exact Hall|]. cbn beta. intros l Hl.
      apply header_is_no_parameter_line; assumption. }
    eexists. split; [reflexivity|]. rewrite Hno. split; [discriminate|].
    intros (hs & line & rest & -> & _ & Hline & _).
    apply Forall_app in Hall as [_ Hall]. inversion Hall; subst. congruence.
  - rewrite skip_parameter_lines_stops
      by (try assumption; rewrite length_app; cbn [length]; lia).
    cbn [bind]. eexists. split; [reflexivity|]. split.
    + intros Hanswer. exists hs, line, rest. repeat split; assumption.
    + intros (hs' & line' & rest' & Heq & Hhs' & Hline' & Hheader).
      rewrite (first_other_line_unique hs hs' line line' rest rest');
        assumption.
Qed.

Lemma pack_file_is_known_by_its_first_other_line_witness :
  exists answer : bool,
    input_is_pack_file "#HIGH_LEVEL_IBF" BuildExamples.layout
      BuildExamples.layout_with_config = Ok answer
    /\ (answer = true
        <-> exists hs line rest,
              unread (open BuildExamples.layout_with_config
                        BuildExamples.layout)
              = (hs ++ line :: rest)%list
              /\ Forall (fun h => starts_with h "##" = true) hs
              /\ starts_with line "##" = false
              /\ starts_with line "#HIGH_LEVEL_IBF" = true).
Proof.
  apply (pack_file_is_known_by_its_first_other_line "#HIGH_LEVEL_IBF"
           BuildExamples.layout BuildExamples.layout_with_config);
    reflexivity.
Defined.

(** ** The configuration at the head of a layout file *)

Lemma not_the_end_mark (b : string) :
  b <> "ENDCONFIG" -> String.eqb ("##" ++ b) "##ENDCONFIG" = false.
Proof.
  intros Hb. apply String.eqb_neq. intros Heq. apply Hb.
  apply (String.app_inj "##"). exact Heq.
Qed.

(** The loop of [read_chopper_config] on lines of configuration that end
    with the mark: it stops at the mark with the text of the lines. *)
Lemma config_lines_to_the_mark (NDEBUG : bool) (body : list string) :
  forall (fuel : nat) (line stream : string) (rest : list string) (g : bool),
    Forall (fun b => b <> "ENDCONFIG") body ->
    (length body < fuel)%nat ->
    config_lines NDEBUG fuel
      {| unread := (map (append "##") body ++ "##ENDCONFIG" :: rest)%list;
         good_at_end := g |} line stream
    = Ok ("##ENDCONFIG", stream ++ BuildExamples.config_text body).
Proof.
  induction body as [|b body IH]; intros [|fuel] line stream rest g Hbody Hfuel;
    cbn [length] in Hfuel; try lia.
  - cbn [map app config_lines getline unread good_at_end].
    change (starts_with "##ENDCONFIG" "##") with true.
    rewrite String.eqb_refl. cbn [andb BuildExamples.config_text].
    replace (stream ++ "") with stream; [reflexivity|].
    clear. induction stream as [|c s IHs]; [reflexivity|].
    rewrite append_String, <- IHs. reflexivity.
  - inversion Hbody as [|? ? Hb Hbody']; subst.
    cbn [map app config_lines getline unread good_at_end].
    rewrite starts_with_append, not_the_end_mark by exact Hb. cbn [andb].
    destruct (parameter_line ("##" ++ b) (starts_with_append "##" b))
      as [_ Hsize].
    unfold assert. rewrite Hsize, orb_true_r. cbn [bind].
    change (remove_prefix 2 ("##" ++ b)) with b.
    rewrite IH by (assumption || lia).
    cbn [BuildExamples.config_text]. rewrite !append_assoc. reflexivity.
Qed.

(** The loop of [read_chopper_config] in general: it stops at the mark,
    after lines of configuration, or it stops on a line that is not the
    mark. *)
Lemma config_lines_cases (NDEBUG : bool) (lines : list string) :
  forall (fuel : nat) (line stream : string) (g : bool),
    line <> "##ENDCONFIG" ->
    (length lines < fuel)%nat ->
    (exists body rest,
        lines = (map (append "##") body ++ "##ENDCONFIG" :: rest)%list
        /\ Forall (fun b => b <> "ENDCONFIG") body)
    \/ (exists line' stream',
          config_lines NDEBUG fuel
            {| unread := lines; good_at_end := g |} line stream
          = Ok (line', stream')
          /\ line' <> "##ENDCONFIG").
Proof.
  induction lines as [|l lines IH]; intros [|fuel] line stream g Hline Hfuel;
    cbn [length] in Hfuel; try lia.
  - right. cbn [config_lines getline unread good_at_end].
    destruct g; cbn [andb]; eexists _, _; (split; [reflexivity|]);
      [discriminate|exact Hline].
  - cbn [config_lines getline unread good_at_end].
    destruct (starts_with l "##") eqn:Hl; cbn [andb].
    + destruct (String.eqb_spec l "##ENDCONFIG") as [->|Hmark].
      * left. exists [], lines. split; [reflexivity|constructor].
      * destruct (parameter_line l Hl) as [Hsplit Hsize].
        unfold assert. rewrite Hsize, orb_true_r. cbn [bind].
        destruct (IH fuel l
                    (stream ++ remove_prefix 2 l ++ String line_feed "") g
                    Hmark ltac:(lia))
          as [(body & rest & -> & Hbody)|(line' & stream' & Hrun & Hline')].
        -- left. exists (remove_prefix 2 l :: body), rest.
           split; [cbn [map app]; rewrite <- Hsplit; reflexivity|].
           constructor; [|exact Hbody].
           intros Hb. apply Hmark. rewrite Hsplit, Hb. reflexivity.
        -- right. exists line', stream'. split; assumption.
    + right. eexists _, _. split; [reflexivity|].
      intros ->. discriminate.
Qed.

(** X12.  When the text of the file begins with the line [##CONFIG:], goes
    on with lines that begin with two number signs and reaches the line
    [##ENDCONFIG], [read_chopper_config] hands to the archive exactly the
    lines in between, each without its two number signs and with a line
    feed after it, and returns true with the configuration read.  What
    follows the mark is not looked at, and the assertion on the length of
    a line never fails. *)
Theorem config_is_read_between_its_marks {D : Type}
    (json_load : string -> configuration D -> result (configuration D))
    (NDEBUG : bool) (config : configuration D) (p : path) (w : world)
    (body rest : list string) :
  unread (open w p)
  = ("##CONFIG:" :: map (append "##") body ++ "##ENDCONFIG" :: rest)%list ->
  Forall (fun b => b <> "ENDCONFIG") body ->
  read_chopper_config json_load NDEBUG config p w
  = (read <- json_load (BuildExamples.config_text body) config ;;;
     Ok (true, read)).
Proof.
  intros Hlines Hbody. unfold read_chopper_config.
  destruct (open w p) as [lines g]. cbn [unread] in Hlines. subst lines.
  cbn [getline unread good_at_end]. rewrite String.eqb_refl. cbn [negb].
  rewrite config_lines_to_the_mark
    by (try assumption; rewrite length_app, length_map; cbn [length]; lia).
  cbn [bind]. rewrite String.eqb_refl. reflexivity.
Qed.

Lemma config_is_read_between_its_marks_witness :
  read_chopper_config BuildExamples.length_as_k false BuildExamples.defaults
    BuildExamples.layout BuildExamples.layout_with_config
  = (read <- BuildExamples.length_as_k
               (BuildExamples.config_text ["{"; "}"]) BuildExamples.defaults ;;;
     Ok (true, read)).
Proof.
  apply (config_is_read_between_its_marks BuildExamples.length_as_k false
           BuildExamples.defaults BuildExamples.layout
           BuildExamples.layout_with_config ["{"; "}"]
           ["#HIGH_LEVEL_IBF max_bin_id:0"; "#FILES"; "file.fa"]).
  - reflexivity.
  - repeat constructor; discriminate.
Defined.

(** X13.  In every other case [read_chopper_config] returns false and
    leaves the configuration as it was: a result other than that is only
    possible for a file of the form of X12.  A missing or empty file, a
    first line other than [##CONFIG:], a line without two number signs
    before the mark and a text that ends before the mark all give false. *)
Theorem config_is_not_read_otherwise {D : Type}
    (json_load : string -> configuration D -> result (configuration D))
    (NDEBUG : bool) (config : configuration D) (p : path) (w : world) :
  read_chopper_config json_load NDEBUG config p w <> Ok (false, config) ->
  exists body rest,
    unread (open w p)
    = ("##CONFIG:" :: map (append "##") body ++ "##ENDCONFIG" :: rest)%list
    /\ Forall (fun b => b <> "ENDCONFIG") body.
Proof.
  unfold read_chopper_config. destruct (open w p) as [lines g].
  cbn [unread]. intros Hrun.
  destruct lines as [|first lines]; cbn [getline unread good_at_end] in Hrun.
  - destruct g; cbn in Hrun; congruence.
  - destruct (String.eqb_spec first "##CONFIG:") as [->|Hfirst];
      cbn [negb] in Hrun; [|congruence].
    destruct (config_lines_cases NDEBUG lines (S (length lines)) "##CONFIG:"
                "" g ltac:(discriminate) ltac:(lia))
      as [(body & rest & -> & Hbody)|(line' & stream' & Hloop & Hline')].
    + exists body, rest. split; [reflexivity|exact Hbody].
    + rewrite Hloop in Hrun. cbn [bind] in Hrun.
      apply String.eqb_neq in Hline'. rewrite Hline' in Hrun.
      cbn [negb] in Hrun. congruence.
Qed.

Lemma config_is_not_read_otherwise_witness :
  exists body rest,
    unread (open BuildExamples.layout_with_config BuildExamples.layout)
    = ("##CONFIG:" :: map (append "##") body ++ "##ENDCONFIG" :: rest)%list
    /\ Forall (fun b => b <> "ENDCONFIG") body.
Proof.
  apply (config_is_not_read_otherwise BuildExamples.length_as_k false
           BuildExamples.defaults BuildExamples.layout
           BuildExamples.layout_with_config).
  vm_compute. discriminate.
Defined.

(** ** Options and the configuration of the layout file *)

Section Options.

Context {D : Type}.
Variable json_load : string -> configuration D -> result (configuration D).
Variable NDEBUG : bool.
Variable default_configuration : configuration D.
Variable validate_shape :
  parser -> build_arguments D -> outcome (build_arguments D).
Variable d_ne : D -> D -> bool.
Variable options : parser.
Variable arguments : build_arguments D.
Variable w : world.

(** A file whose first line is not [##CONFIG:] has no configuration. *)
Lemma no_config_without_first_mark (config : configuration D) (p : path) :
  head (unread (open w p)) <> Some "##CONFIG:" ->
  read_chopper_config json_load NDEBUG config p w = Ok (false, config).
Proof.
  unfold read_chopper_config. destruct (open w p) as [lines g].
  cbn [unread]. intros Hfirst.
  destruct lines as [|first lines]; cbn [getline unread good_at_end].
  - destruct g; reflexivity.
  - destruct (String.eqb_spec first "##CONFIG:") as [->|Hne];
      [contradiction Hfirst; reflexivity|reflexivity].
Qed.

Lemma set_kmer_size_same (a : build_arguments D) :
  set_kmer_size (kmer_size a) a = a.
Proof. destruct a. reflexivity. Qed.

Lemma set_hash_same (a : build_arguments D) : set_hash (hash a) a = a.
Proof. destruct a. reflexivity. Qed.

End Options.

(** X14.  When the layout file has no configuration at its head, and
    [--hash], [--fpr] and one of [--kmer], [--shape] or minimiser input
    make it unnecessary, [parse_chopper_config] does not keep what was
    given on the command line: [validate_shape] works on the k-mer size
    of a default-constructed configuration, the number of hash functions
    and the false positive rate end as the values of that configuration,
    and no warning is written. *)
Theorem options_are_replaced_without_config {D : Type}
    (json_load : string -> configuration D -> result (configuration D))
    (NDEBUG : bool) (default_configuration : configuration D)
    (validate_shape : parser -> build_arguments D -> outcome (build_arguments D))
    (d_ne : D -> D -> bool) (options : parser)
    (arguments validated : build_arguments D) (w : world) :
  head (unread (open w (bin_file arguments))) <> Some "##CONFIG:" ->
  is_option_set options "hash" = true ->
  is_option_set options "fpr" = true ->
  input_is_minimiser arguments = true
    \/ is_option_set options "kmer" = true
    \/ is_option_set options "shape" = true ->
  validate_shape options
    (set_kmer_size (k default_configuration) arguments) = Returns validated ->
  parse_chopper_config json_load NDEBUG default_configuration validate_shape
    d_ne options arguments w
  = Returns
      (set_fpr (false_positive_rate default_configuration)
         (set_hash (num_hash_functions default_configuration) validated),
       []).
Proof.
  intros Hfirst Hhash Hfpr Hkmer Hshape. unfold parse_chopper_config.
  rewrite no_config_without_first_mark by exact Hfirst.
  rewrite Hhash, Hfpr. cbn [negb andb orb].
  assert (negb (input_is_minimiser arguments)
          && negb (is_option_set options "kmer")
          && negb (is_option_set options "shape") = false) as Hrequired.
  { destruct Hkmer as [Hset|[Hset|Hset]]; rewrite Hset; cbn [negb andb];
      rewrite ?andb_false_r; reflexivity. }
  rewrite Hrequired. cbn [orb]. rewrite Hshape. reflexivity.
Qed.

Lemma options_are_replaced_without_config_witness :
  parse_chopper_config BuildExamples.length_as_k false BuildExamples.defaults
    BuildExamples.accept_shape (fun x y => negb (Qeq_bool x y))
    (BuildExamples.options ["kmer"; "hash"; "fpr"]) BuildExamples.given
    BuildExamples.layout_without_config
  = Returns
      (set_fpr (5 # 100)
         (set_hash 2 (set_kmer_size 19 BuildExamples.given)),
       []).
Proof.
  apply (options_are_replaced_without_config BuildExamples.length_as_k false
           BuildExamples.defaults BuildExamples.accept_shape
           (fun x y => negb (Qeq_bool x y))
           (BuildExamples.options ["kmer"; "hash"; "fpr"])
           BuildExamples.given (set_kmer_size 19 BuildExamples.given)
           BuildExamples.layout_without_config).
  - vm_compute. discriminate.
  - reflexivity.
  - reflexivity.
  - right. left. reflexivity.
  - reflexivity.
Defined.

(** X15.  When the layout file has a configuration, an option given on the
    command line wins over it: [validate_shape] works on the given k-mer
    size if [--kmer] was set and on that of the layout file if not, the
    number of hash functions ends as the given one if [--hash] was set and
    as that of the layout file if not, and the warning about either is
    written exactly when the option was set to a value other than that of
    the layout file. *)
Theorem command_line_wins_over_layout {D : Type}
    (json_load : string -> configuration D -> result (configuration D))
    (NDEBUG : bool) (default_configuration config : configuration D)
    (validate_shape : parser -> build_arguments D -> outcome (build_arguments D))
    (d_ne : D -> D -> bool) (options : parser)
    (arguments validated : build_arguments D) (w : world) :
  read_chopper_config json_load NDEBUG default_configuration
    (bin_file arguments) w = Ok (true, config) ->
  validate_shape options
    (set_kmer_size
       (if is_option_set options "kmer" then kmer_size arguments
        else k config) arguments) = Returns validated ->
  exists final cerr,
    parse_chopper_config json_load NDEBUG default_configuration validate_shape
      d_ne options arguments w = Returns (final, cerr)
    /\ kmer_size final = kmer_size validated
    /\ hash final
       = (if is_option_set options "hash" then hash validated
          else num_hash_functions config)
    /\ (In (kmer_size_differs (kmer_size arguments) (k config)) cerr
        <-> is_option_set options "kmer" = true
            /\ k config <> kmer_size arguments)
    /\ (In (hash_differs (hash validated) (num_hash_functions config)) cerr
        <-> is_option_set options "hash" = true
            /\ num_hash_functions config <> hash validated).
Proof.
  intros Hread Hshape. unfold parse_chopper_config. rewrite Hread.
  cbn [negb andb].
  set (kmer_warned := is_option_set options "kmer"
                      && negb (k config =? kmer_size arguments)%Z).
  assert ((if kmer_warned
           then (arguments,
                 [kmer_size_differs (kmer_size arguments) (k config)])
           else (set_kmer_size (k config) arguments, []))
          = (set_kmer_size
               (if is_option_set options "kmer" then kmer_size arguments
                else k config) arguments,
             if kmer_warned
             then [kmer_size_differs (kmer_size arguments) (k config)]
             else [])) as ->.
  { unfold kmer_warned. destruct (is_option_set options "kmer");
      [|reflexivity].
    destruct (Z.eqb_spec (k config) (kmer_size arguments)) as [Hk|Hk];
      cbn [negb andb]; [rewrite Hk|]; rewrite set_kmer_size_same;
      reflexivity. }
  rewrite Hshape.
  set (hash_warned := is_option_set options "hash"
                      && negb (num_hash_functions config =? hash validated)%Z).
  assert ((if hash_warned
           then (validated,
                 ((if kmer_warned
                   then [kmer_size_differs (kmer_size arguments) (k config)]
                   else [])
                  ++ [hash_differs (hash validated)
                        (num_hash_functions config)])%list)
           else (set_hash (num_hash_functions config) validated,
                 if kmer_warned
                 then [kmer_size_differs (kmer_size arguments) (k config)]
                 else []))
          = (set_hash
               (if is_option_set options "hash" then hash validated
                else num_hash_functions config) validated,
             ((if kmer_warned
               then [kmer_size_differs (kmer_size arguments) (k config)]
               else [])
              ++ (if hash_warned
                  then [hash_differs (hash validated)
                          (num_hash_functions config)]
                  else []))%list)) as ->.
  { unfold hash_warned. destruct (is_option_set options "hash");
      [|rewrite app_nil_r; reflexivity].
    destruct (Z.eqb_spec (num_hash_functions config) (hash validated))
      as [Hh|Hh]; cbn [negb andb]; rewrite ?app_nil_r, ?Hh, set_hash_same;
      reflexivity. }
  assert (kmer_warned = true
          <-> is_option_set options "kmer" = true
              /\ k config <> kmer_size arguments) as Hkmer_warned.
  { unfold kmer_warned. rewrite andb_true_iff, negb_true_iff, Z.eqb_neq.
    reflexivity. }
  assert (hash_warned = true
          <-> is_option_set options "hash" = true
              /\ num_hash_functions config <> hash validated) as Hhash_warned.
  { unfold hash_warned. rewrite andb_true_iff, negb_true_iff, Z.eqb_neq.
    reflexivity. }
  destruct (is_option_set options "fpr"
            && d_ne (false_positive_rate config) _);
    eexists _, _; (split; [reflexivity|]);
    (split; [reflexivity|]); (split; [reflexivity|]);
    rewrite ?in_app_iff; split.
  all: destruct kmer_warned, hash_warned; cbn [In]; intuition congruence.
Qed.

Lemma command_line_wins_over_layout_witness :
  exists final cerr,
    parse_chopper_config BuildExamples.length_as_k false BuildExamples.defaults
      BuildExamples.accept_shape (fun x y => negb (Qeq_bool x y))
      (BuildExamples.options ["hash"]) BuildExamples.given
      BuildExamples.layout_with_config = Returns (final, cerr)
    /\ kmer_size final = 4
    /\ hash final = 4
    /\ (In (kmer_size_differs 32 4) cerr <-> false = true /\ 4 <> 32)
    /\ (In (hash_differs 4 2) cerr <-> true = true /\ 2 <> 4).
Proof.
  apply (command_line_wins_over_layout BuildExamples.length_as_k false
           BuildExamples.defaults
           {| k := 4; num_hash_functions := 2;
              false_positive_rate := 5 # 100 |}
           BuildExamples.accept_shape (fun x y => negb (Qeq_bool x y))
           (BuildExamples.options ["hash"]) BuildExamples.given
           (set_kmer_size 4 BuildExamples.given)
           BuildExamples.layout_with_config);
    reflexivity.
Defined.

End Lines.
